(** * OPC UA control adapter: coercion engine, lazy session, batch tools

    A shallow embedding of [main.py].  Python exceptions are an explicit
    result type, the module-level global [_opcua_client] and the standard
    error stream live in an explicit world that every [async def] threads,
    and the client library (sessions, node handles, remote reads and
    writes) is an interface record: the theorems hold for every
    implementation of it.  Requests are handled one at a time, so an
    [await asyncio.to_thread(f, x)] is the call [f x]. *)

From Stdlib Require Import ZArith NArith List String Ascii Bool Lia DecimalString.
Import ListNotations.
Local Open Scope string_scope.
Local Open Scope Z_scope.

(** ** Python values, exceptions and the built-in conversions *)

Module Py.

(** Exceptions that reach a handler of the program.  All of them derive
    from [Exception]; [LibError] is whatever the client library or the
    transport raises, with its type name and its [str]. *)
Inductive Exn : Type :=
| ValueError (msg : string)
| KeyError (key : string)
| LibError (type_name : string) (msg : string).

Inductive Result (A : Type) : Type :=
| Ok (a : A)
| Raise (e : Exn).
Arguments Ok {A} a.
Arguments Raise {A} e.

Definition bind {A B} (m : Result A) (k : A -> Result B) : Result B :=
  match m with
  | Ok a => k a
  | Raise e => Raise e
  end.

Definition is_ValueError (e : Exn) : bool :=
  match e with ValueError _ => true | _ => false end.

(** [try: body / except ValueError: handler] *)
Definition try_except_ValueError {A} (body : Result A) (handler : Result A)
  : Result A :=
  match body with
  | Ok a => Ok a
  | Raise e => if is_ValueError e then handler else Raise e
  end.

(** Text is a sequence of code points below 256. *)
Definition code (c : ascii) : N := N_of_ascii c.

(** The white space [int] and [float] skip around a literal: tab to
    carriage return, the space, and the two spaces above 127 (next line,
    no-break space), which both conversions turn into a space first. *)
Definition is_space (c : ascii) : bool :=
  let n := code c in
  ((9 <=? n) && (n <=? 13) || (n =? 32) || (n =? 133) || (n =? 160))%N.

Definition is_digit (c : ascii) : bool :=
  let n := code c in ((48 <=? n) && (n <=? 57))%N.

Definition digit_value (c : ascii) : Z := Z.of_N (code c) - 48.

Definition lower_char (c : ascii) : ascii :=
  let n := code c in
  if ((65 <=? n) && (n <=? 90)
      || (192 <=? n) && (n <=? 222) && negb (n =? 215))%N
  then ascii_of_N (n + 32) else c.

(** [str.lower] *)
Fixpoint lower (s : string) : string :=
  match s with
  | EmptyString => EmptyString
  | String c r => String (lower_char c) (lower r)
  end.

(** [x in (w1, ..., wn)] for strings *)
Definition str_in (x : string) (ws : list string) : bool :=
  existsb (String.eqb x) ws.
Arguments str_in : simpl never.

Fixpoint drop_space (cs : list ascii) : list ascii :=
  match cs with
  | c :: r => if is_space c then drop_space r else cs
  | [] => []
  end.

(** Leading and trailing white space removed, as both [int] and [float]
    do before they read the literal. *)
Definition strip (cs : list ascii) : list ascii :=
  rev (drop_space (rev (drop_space cs))).

Definition split_sign (cs : list ascii) : bool * list ascii :=
  match cs with
  | "-"%char :: r => (true, r)
  | "+"%char :: r => (false, r)
  | _ => (false, cs)
  end.

(** Decimal digits with single underscores between digits.  [after_digit]
    says whether the previous character was a digit. *)
Fixpoint digits (acc : Z) (after_digit : bool) (cs : list ascii) : option Z :=
  match cs with
  | [] => if after_digit then Some acc else None
  | c :: r =>
      if is_digit c then digits (10 * acc + digit_value c) true r
      else if Ascii.eqb c "_" then
             if after_digit then
               match r with
               | d :: _ => if is_digit d then digits acc false r else None
               | [] => None
               end
             else None
           else None
  end.

Fixpoint has_char (c : ascii) (s : string) : bool :=
  match s with
  | EmptyString => false
  | String c' r => Ascii.eqb c c' || has_char c r
  end.

Definition double_quote : ascii := ascii_of_N 34.

Definition is_printable (c : ascii) : bool :=
  let n := code c in
  ((32 <=? n) && (n <=? 126) || (161 <=? n) && negb (n =? 173))%N.

Definition hex_digit (n : N) : ascii :=
  if (n <? 10)%N then ascii_of_N (48 + n) else ascii_of_N (87 + n).

Definition escape (quote c : ascii) : string :=
  let n := code c in
  if Ascii.eqb c quote || Ascii.eqb c "\" then String "\" (String c "")
  else if (n =? 9)%N then "\t"
  else if (n =? 10)%N then "\n"
  else if (n =? 13)%N then "\r"
  else if is_printable c then String c ""
  else String "\" (String "x" (String (hex_digit (n / 16))
                                      (String (hex_digit (n mod 16)) ""))).

Fixpoint repr_body (quote : ascii) (s : string) : string :=
  match s with
  | EmptyString => EmptyString
  | String c r => escape quote c ++ repr_body quote r
  end.

(** [repr(s)] for a string: single quotes, or double quotes when the text
    has a single quote and no double quote; the quote in use, the
    backslash and the characters that do not print are escaped. *)
Definition repr (s : string) : string :=
  let quote :=
    if has_char "'" s && negb (has_char double_quote s)
    then double_quote else "'"%char in
  String quote (repr_body quote s ++ String quote "").

(** [sys.get_int_max_str_digits()], at its default. *)
Definition int_max_str_digits : nat := 4300.

Definition count_digits (cs : list ascii) : nat :=
  List.length (filter is_digit cs).

(** [int(s)] for a string [s], base ten: white space around, a sign,
    digits; a literal of more digits than the interpreter converts is
    refused like a malformed one. *)
Definition int (s : string) : Result Z :=
  let (neg, body) := split_sign (strip (list_ascii_of_string s)) in
  match digits 0 false body with
  | Some v =>
      if Nat.ltb int_max_str_digits (count_digits body) then
        Raise (ValueError
                 "Exceeds the limit (4300 digits) for integer string conversion")
      else Ok (if neg then - v else v)
  | None =>
      Raise (ValueError ("invalid literal for int() with base 10: " ++ repr s))
  end.

(** Every underscore of a float literal stands between two digits. *)
Fixpoint underscores_ok (prev_digit : bool) (cs : list ascii) : bool :=
  match cs with
  | [] => true
  | c :: r =>
      if Ascii.eqb c "_" then
        prev_digit
        && match r with d :: _ => is_digit d | [] => false end
        && underscores_ok false r
      else underscores_ok (is_digit c) r
  end.

Definition remove_underscores (cs : list ascii) : list ascii :=
  filter (fun c => negb (Ascii.eqb c "_")) cs.

Fixpoint skip_digits (cs : list ascii) : nat * list ascii :=
  match cs with
  | c :: r =>
      if is_digit c then let (n, t) := skip_digits r in (S n, t) else (O, cs)
  | [] => (O, [])
  end.

(** The exponent part: absent, or [e]/[E], an optional sign and at least
    one digit, up to the end of the literal. *)
Definition exponent_ok (cs : list ascii) : bool :=
  match cs with
  | [] => true
  | c :: r =>
      if Ascii.eqb (lower_char c) "e" then
        let (n, t) := skip_digits (snd (split_sign r)) in
        negb (Nat.eqb n 0) && match t with [] => true | _ => false end
      else false
  end.

(** Digits, an optional point and digits, with a digit on at least one
    side of the point; then the exponent. *)
Definition decimal_ok (cs : list ascii) : bool :=
  let (n1, t1) := skip_digits cs in
  match t1 with
  | "."%char :: r =>
      let (n2, t2) := skip_digits r in
      negb (Nat.eqb (n1 + n2) 0) && exponent_ok t2
  | _ => negb (Nat.eqb n1 0) && exponent_ok t1
  end.

Definition is_inf_nan (cs : list ascii) : bool :=
  str_in (lower (string_of_list_ascii cs)) ["inf"; "infinity"; "nan"].

Definition float_literal_ok (s : string) : bool :=
  let cs := strip (list_ascii_of_string s) in
  underscores_ok false cs
  && (let body := snd (split_sign (remove_underscores cs)) in
      decimal_ok body || is_inf_nan body).

(** A float is kept as the literal it was read from: [FloatOf s] is the
    double that [float(s)] returns.  Its numeric value plays no part in
    the control flow of the program. *)
Inductive Float : Type := FloatOf (literal : string).

(** [float(s)] for a string [s]. *)
Definition float (s : string) : Result Float :=
  if float_literal_ok s then Ok (FloatOf s)
  else Raise (ValueError ("could not convert string to float: " ++ repr s)).

(** Values a caller can send in a batch item and values the server can
    return.  A float is carried by the text [str] prints for it. *)
Inductive Val : Type :=
| VNone
| VBool (b : bool)
| VInt (z : Z)
| VFloat (printed : string)
| VStr (s : string).

Definition decimal (n : N) : string :=
  NilEmpty.string_of_uint (N.to_uint n).

Definition str_of_Z (z : Z) : string :=
  match z with
  | Z0 => "0"
  | Zpos p => decimal (Npos p)
  | Zneg p => "-" ++ decimal (Npos p)
  end.

(** [str(v)] *)
Definition str (v : Val) : string :=
  match v with
  | VNone => "None"
  | VBool true => "True"
  | VBool false => "False"
  | VInt z => str_of_Z z
  | VFloat printed => printed
  | VStr s => s
  end.

(** [str(e)] for an exception *)
Definition str_exn (e : Exn) : string :=
  match e with
  | ValueError msg => msg
  | KeyError key => repr key
  | LibError _ msg => msg
  end.

(** [type(e).__name__] *)
Definition type_name (e : Exn) : string :=
  match e with
  | ValueError _ => "ValueError"
  | KeyError _ => "KeyError"
  | LibError name _ => name
  end.

(** A [dict] with string keys: insertion ordered, one entry per key. *)
Definition Dict : Type := list (string * Val).

Fixpoint get (d : Dict) (k : string) : option Val :=
  match d with
  | [] => None
  | (k', v) :: r => if String.eqb k k' then Some v else get r k
  end.

(** [d[k]] *)
Definition getitem (d : Dict) (k : string) : Result Val :=
  match get d k with
  | Some v => Ok v
  | None => Raise (KeyError k)
  end.

(** [d[k] = v]: an existing key keeps its place and takes the new value,
    a new key goes last. *)
Fixpoint setitem (d : Dict) (k : string) (v : Val) : Dict :=
  match d with
  | [] => [(k, v)]
  | (k', v') :: r =>
      if String.eqb k k' then (k', v) :: r else (k', v') :: setitem r k v
  end.

(** [{k: v for k, v in kvs}] *)
Definition dict_of (kvs : list (string * Val)) : Dict :=
  fold_left (fun d kv => setitem d (fst kv) (snd kv)) kvs [].

End Py.


(** ** The client library's data types *)

Module Ua.

(** The built-in types of the protocol, [ua.VariantType]. *)
Module VariantType.
Inductive t : Type :=
| Null | Boolean | SByte | Byte | Int16 | UInt16 | Int32 | UInt32
| Int64 | UInt64 | Float | Double | String | DateTime | Guid | ByteString
| XmlElement | NodeId | ExpandedNodeId | StatusCode | QualifiedName
| LocalizedText | ExtensionObject | DataValue | Variant | DiagnosticInfo.
End VariantType.

(** What a variant built by this program holds. *)
Inductive Payload : Type :=
| PInt (z : Z)
| PFloat (f : Py.Float)
| PBool (b : bool)
| PStr (s : string).

(** [ua.Variant(value, varianttype)]: the constructor stores both and
    checks neither the range nor the type of the value. *)
Record Variant : Type := mkVariant { Value : Payload; VType : VariantType.t }.

(** [ua.DataValue]; its [Value] attribute is a variant or [None]. *)
Record DataValue : Type := mkDataValue { dv_Value : option Variant }.

Record QualifiedName : Type :=
  mkQualifiedName { NamespaceIndex : N; Name : string }.

End Ua.

Import Py Ua.

(** ** Auto-detection from the lexical shape of the value *)

(** [ua.Variant(int_value, <width by range>)], the body of the first [try]. *)
Definition int_variant (int_value : Z) : Variant :=
  if (-32768 <=? int_value) && (int_value <=? 32767)
  then mkVariant (PInt int_value) VariantType.Int16
  else if (-2147483648 <=? int_value) && (int_value <=? 2147483647)
  then mkVariant (PInt int_value) VariantType.Int32
  else mkVariant (PInt int_value) VariantType.Int64.

Definition auto_detect_variant (value : string) : Result Variant :=
  if str_in (lower value) ["true"; "false"; "on"; "off"; "yes"; "no"] then
    let bool_value := str_in (lower value) ["true"; "on"; "yes"; "1"] in
    Ok (mkVariant (PBool bool_value) VariantType.Boolean)
  else
    try_except_ValueError
      (bind (int value) (fun int_value => Ok (int_variant int_value)))
      (try_except_ValueError
         (bind (float value) (fun float_value =>
            Ok (mkVariant (PFloat float_value) VariantType.Float)))
         (Ok (mkVariant (PStr value) VariantType.String))).


(** ** The world outside the program *)

(** A [Client] object: its identity and the attributes the program sets. *)
Record Client : Type := mkClient {
  client_id : nat;
  client_url : string;
  client_user : option string;
  client_password : option string
}.

(** The lines written to [sys.stderr], one constructor per [print]. *)
Inductive LogLine : Type :=
| LogConnected (url : string)
| LogDisconnected
| LogDisconnectError (e : Exn)
| LogNodeExpects (vt : VariantType.t)
| LogUnknownType (vt : VariantType.t)
| LogCouldNotDetect (e : Exn).

(** Calls that open or close the transport. *)
Inductive SessionCall : Type :=
| CallConnect (c : Client)
| CallDisconnect (c : Client).

(** The client library, over the state [Remote] of the network and the
    servers behind it and the type [Node] of node handles.  The
    constructor [Client(url)] parses the url, takes from it the user name
    and the password it carries and raises on a url it cannot parse;
    building a handle parses the id; neither talks to anybody.  Every
    other operation may change the remote state and may raise. *)
Record Library (Node Remote : Type) : Type := mkLibrary {
  client_init : string -> Result (option string * option string);
  connect : Client -> Remote -> Result unit * Remote;
  disconnect : Client -> Remote -> Result unit * Remote;
  get_node : Client -> Val -> Result Node;
  nodeid_to_string : Node -> string;
  get_data_value : Node -> Remote -> Result DataValue * Remote;
  set_data_value : Node -> DataValue -> Remote -> Result unit * Remote;
  get_value : Node -> Remote -> Result Val * Remote;
  get_children : Node -> Remote -> Result (list Node) * Remote;
  get_browse_name : Node -> Remote -> Result QualifiedName * Remote
}.
Arguments client_init {Node Remote}.
Arguments connect {Node Remote}.
Arguments disconnect {Node Remote}.
Arguments get_node {Node Remote}.
Arguments nodeid_to_string {Node Remote}.
Arguments get_data_value {Node Remote}.
Arguments set_data_value {Node Remote}.
Arguments get_value {Node Remote}.
Arguments get_children {Node Remote}.
Arguments get_browse_name {Node Remote}.

(** The three module-level settings read from the environment. *)
Record Config : Type := mkConfig {
  server_url : string;
  username : option string;
  password : option string
}.

(** Truth value of an [os.getenv] result: [None] and the empty string are
    false. *)
Definition truthy (o : option string) : bool :=
  match o with
  | Some s => negb (String.eqb s "")
  | None => false
  end.

Record World (Remote : Type) : Type := mkWorld {
  _opcua_client : option Client;     (* the module-level global *)
  next_id : nat;                     (* identity of the next object made *)
  remote : Remote;
  session_calls : list SessionCall;
  stderr : list LogLine
}.
Arguments mkWorld {Remote}.
Arguments _opcua_client {Remote}.
Arguments next_id {Remote}.
Arguments remote {Remote}.
Arguments session_calls {Remote}.
Arguments stderr {Remote}.

(** ** Computations: a world in, a value or an exception and a world out *)

Section Monad.
Context {Remote : Type}.

Definition IO (A : Type) : Type := World Remote -> Result A * World Remote.

Definition ret {A} (a : A) : IO A := fun w => (Ok a, w).

Definition raise {A} (e : Exn) : IO A := fun w => (Raise e, w).

Definition io_bind {A B} (m : IO A) (k : A -> IO B) : IO B :=
  fun w =>
    match m w with
    | (Ok a, w') => k a w'
    | (Raise e, w') => (Raise e, w')
    end.

(** A pure conversion or lookup inside a computation. *)
Definition lift {A} (r : Result A) : IO A := fun w => (r, w).

(** [try: body / except Exception as e: handler]; what the body did to
    the world before it raised stays done. *)
Definition try_except {A} (body : IO A) (handler : Exn -> IO A) : IO A :=
  fun w =>
    match body w with
    | (Ok a, w') => (Ok a, w')
    | (Raise e, w') => handler e w'
    end.

(** [try: body / finally: cleanup] *)
Definition try_finally {A} (body : IO A) (cleanup : IO unit) : IO A :=
  fun w =>
    let (r, w') := body w in
    match cleanup w' with
    | (Ok _, w'') => (r, w'')
    | (Raise e, w'') => (Raise e, w'')
    end.

(** [print(..., file=sys.stderr)] *)
Definition print (l : LogLine) : IO unit :=
  fun w => (Ok tt, mkWorld (_opcua_client w) (next_id w) (remote w)
                            (session_calls w) (stderr w ++ [l])).

Definition read_global : IO (option Client) :=
  fun w => (Ok (_opcua_client w), w).

Definition write_global (c : option Client) : IO unit :=
  fun w => (Ok tt, mkWorld c (next_id w) (remote w) (session_calls w)
                            (stderr w)).

(** An operation of the library on the remote state. *)
Definition remote_op {A} (op : Remote -> Result A * Remote) : IO A :=
  fun w =>
    let (r, rem) := op (remote w) in
    (r, mkWorld (_opcua_client w) (next_id w) rem (session_calls w) (stderr w)).

Definition record_call (c : SessionCall) : IO unit :=
  fun w => (Ok tt, mkWorld (_opcua_client w) (next_id w) (remote w)
                            (session_calls w ++ [c]) (stderr w)).

End Monad.
Arguments IO : clear implicits.

Declare Scope io_scope.
Delimit Scope io_scope with io.
Notation "x <- m ;; k" := (io_bind m (fun x => k))
  (at level 61, m at next level, right associativity) : io_scope.
Notation "m ;; k" := (io_bind m (fun _ => k))
  (at level 61, right associativity) : io_scope.
Local Open Scope io_scope.

(** ** The program *)

(** What a tool returns: one constructor per [return] of a tool, holding
    the values its format string prints. *)
Inductive Response : Type :=
| Children (node_id : string) (children_info : list Dict)
| BrowseError (node_id : string) (e : Exn)
| ReadMultiple (results : Dict)
| ReadMultipleError (node_ids : list string) (e : Exn)
| WriteMultiple (status_report : list Dict)
| WriteMultipleError (e : Exn).

Definition no_attribute (attr : string) : Exn :=
  LibError "AttributeError"
           ("'NoneType' object has no attribute " ++ repr attr).

Section Program.
Context {Node Remote : Type}.
Variable lib : Library Node Remote.
Variable cfg : Config.

(** A method or attribute of [obj], which may be [None]. *)
Definition attr {A B} (obj : option A) (name : string)
  (k : A -> IO Remote B) : IO Remote B :=
  match obj with
  | Some a => k a
  | None => raise (no_attribute name)
  end.

(** [Client(url)]: a new object with the credentials of the url, or the
    exception of the constructor and no object; nothing is sent. *)
Definition new_Client (url : string) : IO Remote Client :=
  fun w =>
    match client_init lib url with
    | Ok (user, pass) =>
        (Ok (mkClient (next_id w) url user pass),
         mkWorld (_opcua_client w) (S (next_id w)) (remote w)
                 (session_calls w) (stderr w))
    | Raise e => (Raise e, w)
    end.

Definition set_user (u : option string) : IO Remote unit :=
  g <- read_global ;;
  attr g "set_user" (fun c =>
    write_global (Some (mkClient (client_id c) (client_url c) u
                                 (client_password c)))).

Definition set_password (p : option string) : IO Remote unit :=
  g <- read_global ;;
  attr g "set_password" (fun c =>
    write_global (Some (mkClient (client_id c) (client_url c)
                                 (client_user c) p))).

Definition client_connect : IO Remote unit :=
  g <- read_global ;;
  attr g "connect" (fun c =>
    record_call (CallConnect c) ;; remote_op (connect lib c)).

Definition client_disconnect : IO Remote unit :=
  g <- read_global ;;
  attr g "disconnect" (fun c =>
    record_call (CallDisconnect c) ;; remote_op (disconnect lib c)).

Definition get_opcua_client : IO Remote (option Client) :=
  g <- read_global ;;
  match g with
  | None =>
      c <- new_Client (server_url cfg) ;;
      write_global (Some c) ;;
      (if truthy (username cfg) && truthy (password cfg) then
         set_user (username cfg) ;;
         set_password (password cfg)
       else ret tt) ;;
      client_connect ;;
      print (LogConnected (server_url cfg))
  | Some _ => ret tt
  end ;;
  read_global.

Definition cleanup_client : IO Remote unit :=
  g <- read_global ;;
  match g with
  | Some _ =>
      try_finally
        (try_except
           (client_disconnect ;;
            print LogDisconnected)
           (fun e => print (LogDisconnectError e)))
        (write_global None)
  | None => ret tt
  end.

Definition detect_and_convert_value (node : Node) (value : string)
  : IO Remote Variant :=
  try_except
    (current_data_value <- remote_op (get_data_value lib node) ;;
     current_variant_type <-
       attr (dv_Value current_data_value) "VariantType"
            (fun v => ret (VType v)) ;;
     print (LogNodeExpects current_variant_type) ;;
     match current_variant_type with
     | VariantType.Int16 =>
         i <- lift (int value) ;; ret (mkVariant (PInt i) VariantType.Int16)
     | VariantType.Int32 =>
         i <- lift (int value) ;; ret (mkVariant (PInt i) VariantType.Int32)
     | VariantType.UInt16 =>
         i <- lift (int value) ;; ret (mkVariant (PInt i) VariantType.UInt16)
     | VariantType.UInt32 =>
         i <- lift (int value) ;; ret (mkVariant (PInt i) VariantType.UInt32)
     | VariantType.Byte =>
         i <- lift (int value) ;; ret (mkVariant (PInt i) VariantType.Byte)
     | VariantType.SByte =>
         i <- lift (int value) ;; ret (mkVariant (PInt i) VariantType.SByte)
     | VariantType.Int64 =>
         i <- lift (int value) ;; ret (mkVariant (PInt i) VariantType.Int64)
     | VariantType.UInt64 =>
         i <- lift (int value) ;; ret (mkVariant (PInt i) VariantType.UInt64)
     | VariantType.Float =>
         f <- lift (float value) ;;
         ret (mkVariant (PFloat f) VariantType.Float)
     | VariantType.Double =>
         f <- lift (float value) ;;
         ret (mkVariant (PFloat f) VariantType.Double)
     | VariantType.Boolean =>
         let bool_value := str_in (lower value) ["true"; "1"; "on"; "yes"] in
         ret (mkVariant (PBool bool_value) VariantType.Boolean)
     | VariantType.String =>
         ret (mkVariant (PStr value) VariantType.String)
     | _ =>
         print (LogUnknownType current_variant_type) ;;
         lift (auto_detect_variant value)
     end)
    (fun e =>
       print (LogCouldNotDetect e) ;;
       lift (auto_detect_variant value)).

(** [client.get_node(node_id)] *)
Definition client_get_node (client : option Client) (node_id : Val)
  : Result Node :=
  match client with
  | Some c => get_node lib c node_id
  | None => Raise (no_attribute "get_node")
  end.

(** One turn of the loop of [browse_opcua_node_children]. *)
Definition browse_child (child : Node) (children_info : list Dict)
  : IO Remote (list Dict) :=
  try_except
    (browse_name <- remote_op (get_browse_name lib child) ;;
     ret (children_info ++
          [[("node_id", VStr (nodeid_to_string lib child));
            ("browse_name",
             VStr (decimal (NamespaceIndex browse_name) ++ ":"
                   ++ Name browse_name))]])%list)
    (fun e =>
       ret (children_info ++
            [[("node_id", VStr (nodeid_to_string lib child));
              ("browse_name",
               VStr ("Error getting name: " ++ str_exn e))]])%list).

Fixpoint browse_loop (children : list Node) (children_info : list Dict)
  : IO Remote (list Dict) :=
  match children with
  | [] => ret children_info
  | child :: rest =>
      children_info' <- browse_child child children_info ;;
      browse_loop rest children_info'
  end.

Definition browse_opcua_node_children (node_id : string)
  : IO Remote Response :=
  try_except
    (client <- get_opcua_client ;;
     node <- lift (client_get_node client (VStr node_id)) ;;
     children <- remote_op (get_children lib node) ;;
     children_info <- browse_loop children [] ;;
     ret (Children node_id children_info))
    (fun e => ret (BrowseError node_id e)).

(** [[client.get_node(nid) for nid in node_ids]]: the first id that does
    not resolve raises out of the comprehension. *)
Fixpoint get_nodes (client : option Client) (node_ids : list string)
  : Result (list Node) :=
  match node_ids with
  | [] => Ok []
  | nid :: rest =>
      bind (client_get_node client (VStr nid)) (fun node =>
      bind (get_nodes client rest) (fun nodes => Ok (node :: nodes)))
  end.

(** One turn of the loop of [read_multiple_opcua_nodes]. *)
Definition read_node (node : Node) (values : list Val)
  : IO Remote (list Val) :=
  try_except
    (value <- remote_op (get_value lib node) ;;
     ret (values ++ [value])%list)
    (fun e =>
       ret (values ++
            [VStr ("Error reading node " ++ nodeid_to_string lib node
                   ++ ": " ++ str_exn e)])%list).

Fixpoint read_loop (nodes_to_read : list Node) (values : list Val)
  : IO Remote (list Val) :=
  match nodes_to_read with
  | [] => ret values
  | node :: rest =>
      values' <- read_node node values ;;
      read_loop rest values'
  end.

Definition read_multiple_opcua_nodes (node_ids : list string)
  : IO Remote Response :=
  try_except
    (client <- get_opcua_client ;;
     nodes_to_read <- lift (get_nodes client node_ids) ;;
     values <- read_loop nodes_to_read [] ;;
     let results :=
       dict_of (map (fun nv => (nodeid_to_string lib (fst nv), snd nv))
                    (combine nodes_to_read values)) in
     ret (ReadMultiple results))
    (fun e => ret (ReadMultipleError node_ids e)).

(** One turn of the loop of [write_multiple_opcua_nodes]. *)
Definition write_item (client : option Client) (item : Dict)
  (status_report : list Dict) : IO Remote (list Dict) :=
  try_except
    (node <- attr client "get_node" (fun c =>
               node_id <- lift (getitem item "node_id") ;;
               lift (get_node lib c node_id)) ;;
     value <- lift (getitem item "value") ;;
     variant <- detect_and_convert_value node (str value) ;;
     let data_value := mkDataValue (Some variant) in
     remote_op (set_data_value lib node data_value) ;;
     new_value <- remote_op (get_value lib node) ;;
     node_id <- lift (getitem item "node_id") ;;
     value_written <- lift (getitem item "value") ;;
     ret (status_report ++
          [[("node_id", node_id);
            ("value_written", value_written);
            ("verified_value", new_value);
            ("status", VStr "Success")]])%list)
    (fun e =>
       node_id <- lift (getitem item "node_id") ;;
       value_written <- lift (getitem item "value") ;;
       ret (status_report ++
            [[("node_id", node_id);
              ("value_written", value_written);
              ("status", VStr ("Error: " ++ str_exn e))]])%list).

Fixpoint write_loop (client : option Client) (nodes_to_write : list Dict)
  (status_report : list Dict) : IO Remote (list Dict) :=
  match nodes_to_write with
  | [] => ret status_report
  | item :: rest =>
      status_report' <- write_item client item status_report ;;
      write_loop client rest status_report'
  end.

Definition write_multiple_opcua_nodes (nodes_to_write : list Dict)
  : IO Remote Response :=
  try_except
    (client <- get_opcua_client ;;
     status_report <- write_loop client nodes_to_write [] ;;
     ret (WriteMultiple status_report))
    (fun e => ret (WriteMultipleError e)).

End Program.

(** ** The single-node tools, the connection test and the lifespan *)

(** The two nodes a client hands out without an id, [get_root_node] and
    [get_objects_node]: like [get_node] they build a handle and talk to
    nobody. *)
Record Folders (Node : Type) : Type := mkFolders {
  get_root_node : Client -> Result Node;
  get_objects_node : Client -> Result Node
}.
Arguments get_root_node {Node}.
Arguments get_objects_node {Node}.

Section SingleNodeTools.
Context {Node Remote : Type}.
Variable lib : Library Node Remote.
Variable folders : Folders Node.
Variable cfg : Config.

Definition read_opcua_node (node_id : string) : IO Remote string :=
  try_except
    (client <- get_opcua_client lib cfg ;;
     node <- lift (client_get_node lib client (VStr node_id)) ;;
     value <- remote_op (get_value lib node) ;;
     ret ("Node " ++ node_id ++ " value: " ++ str value))
    (fun e =>
       ret ("Error reading node " ++ node_id ++ ": " ++ type_name e ++ ": "
            ++ str_exn e)).

Definition write_opcua_node (node_id value : string) : IO Remote string :=
  try_except
    (client <- get_opcua_client lib cfg ;;
     node <- lift (client_get_node lib client (VStr node_id)) ;;
     variant <- detect_and_convert_value lib node (str (VStr value)) ;;
     let data_value := mkDataValue (Some variant) in
     remote_op (set_data_value lib node data_value) ;;
     new_value <- remote_op (get_value lib node) ;;
     ret ("Successfully wrote " ++ value ++ " to node " ++ node_id
          ++ ". Verified value: " ++ str new_value))
    (fun e =>
       ret ("Error writing to node " ++ node_id ++ ": " ++ type_name e ++ ": "
            ++ str_exn e)).

Definition test_opcua_connection : IO Remote string :=
  try_except
    (client <- get_opcua_client lib cfg ;;
     root <- attr client "get_root_node"
                  (fun c => lift (get_root_node folders c)) ;;
     objects <- attr client "get_objects_node"
                     (fun c => lift (get_objects_node folders c)) ;;
     children <- remote_op (get_children lib objects) ;;
     ret ("Connected successfully to " ++ server_url cfg ++ ". Found "
          ++ decimal (N.of_nat (List.length children))
          ++ " objects in root folder."))
    (fun e =>
       ret ("Connection test failed: " ++ type_name e ++ ": " ++ str_exn e)).

(** [opcua_lifespan]: the server runs on the empty context the manager
    yields, without a connection made for it, and the client is released
    when the server is done, whatever way it ended. *)
Definition opcua_lifespan {A} (serve : Dict -> IO Remote A) : IO Remote A :=
  try_finally (serve []) (cleanup_client lib).

End SingleNodeTools.

(** ** A small simulated server

    An implementation of the library interface used to run the program on
    concrete requests: node handles are their id strings, the remote state
    is the queue of answers to the next connection attempts and the table
    of nodes with their current variants. *)

Module Sim.

Record Remote : Type := mkRemote {
  accepts : list bool;                 (* [false]: the next connect fails *)
  nodes : list (string * Variant)
}.

Fixpoint has_equals (s : string) : bool :=
  match s with
  | EmptyString => false
  | String c r => Ascii.eqb c "=" || has_equals r
  end.

Fixpoint find_node (tbl : list (string * Variant)) (n : string)
  : option Variant :=
  match tbl with
  | [] => None
  | (k, v) :: r => if String.eqb n k then Some v else find_node r n
  end.

Fixpoint store_node (tbl : list (string * Variant)) (n : string) (v : Variant)
  : list (string * Variant) :=
  match tbl with
  | [] => []
  | (k, v') :: r =>
      if String.eqb n k then (k, v) :: r else (k, v') :: store_node r n v
  end.

Definition variant_type_eqb (a b : VariantType.t) : bool :=
  match a, b with
  | VariantType.Null, VariantType.Null
  | VariantType.Boolean, VariantType.Boolean
  | VariantType.SByte, VariantType.SByte
  | VariantType.Byte, VariantType.Byte
  | VariantType.Int16, VariantType.Int16
  | VariantType.UInt16, VariantType.UInt16
  | VariantType.Int32, VariantType.Int32
  | VariantType.UInt32, VariantType.UInt32
  | VariantType.Int64, VariantType.Int64
  | VariantType.UInt64, VariantType.UInt64
  | VariantType.Float, VariantType.Float
  | VariantType.Double, VariantType.Double
  | VariantType.String, VariantType.String
  | VariantType.DateTime, VariantType.DateTime => true
  | _, _ => false
  end.

Definition unknown_node : Exn :=
  LibError "BadNodeIdUnknown"
           "The node id refers to a node that does not exist".

Definition sim_connect (c : Client) (r : Remote) : Result unit * Remote :=
  match accepts r with
  | false :: rest =>
      (Raise (LibError "ConnectionRefusedError"
                       "[Errno 111] Connection refused"),
       mkRemote rest (nodes r))
  | true :: rest => (Ok tt, mkRemote rest (nodes r))
  | [] => (Ok tt, r)
  end.

Definition sim_disconnect (c : Client) (r : Remote) : Result unit * Remote :=
  (Ok tt, r).

Definition sim_get_node (c : Client) (v : Val) : Result string :=
  match v with
  | VStr s =>
      if has_equals s then Ok s
      else Raise (LibError "UaStringParsingError"
                           ("Error parsing string " ++ s))
  | _ => Raise (LibError "UaError" "invalid node id")
  end.

Definition sim_get_data_value (n : string) (r : Remote)
  : Result DataValue * Remote :=
  match find_node (nodes r) n with
  | Some v => (Ok (mkDataValue (Some v)), r)
  | None => (Raise unknown_node, r)
  end.

Definition sim_set_data_value (n : string) (dv : DataValue) (r : Remote)
  : Result unit * Remote :=
  match find_node (nodes r) n, dv_Value dv with
  | Some old, Some new =>
      if variant_type_eqb (VType old) (VType new)
      then (Ok tt, mkRemote (accepts r) (store_node (nodes r) n new))
      else (Raise (LibError "BadTypeMismatch"
                            "The value is not of the attribute's type"), r)
  | Some _, None => (Ok tt, r)
  | None, _ => (Raise unknown_node, r)
  end.

Definition val_of (p : Payload) : Val :=
  match p with
  | PInt z => VInt z
  | PFloat (FloatOf s) => VFloat s
  | PBool b => VBool b
  | PStr s => VStr s
  end.

Definition sim_get_value (n : string) (r : Remote) : Result Val * Remote :=
  match find_node (nodes r) n with
  | Some v => (Ok (val_of (Value v)), r)
  | None => (Raise unknown_node, r)
  end.

(** The objects folder lists every node of the table and one stale
    reference. *)
Definition sim_get_children (n : string) (r : Remote)
  : Result (list string) * Remote :=
  if String.eqb n "i=85"
  then (Ok (map fst (nodes r) ++ ["ns=2;s=Stale"])%list, r)
  else match find_node (nodes r) n with
       | Some _ => (Ok [], r)
       | None => (Raise unknown_node, r)
       end.

Definition sim_get_browse_name (n : string) (r : Remote)
  : Result QualifiedName * Remote :=
  match find_node (nodes r) n with
  | Some _ => (Ok (mkQualifiedName 2 n), r)
  | None => (Raise unknown_node, r)
  end.

(** The text of a url after its "://". *)
Fixpoint after_scheme (cs : list ascii) : list ascii :=
  match cs with
  | ":"%char :: "/"%char :: "/"%char :: r => r
  | _ :: r => after_scheme r
  | [] => []
  end.

Fixpoint until_slash (cs : list ascii) : list ascii :=
  match cs with
  | [] => []
  | c :: r => if Ascii.eqb c "/" then [] else c :: until_slash r
  end.

(** The text before and the text after the first [c]. *)
Fixpoint split_first (c : ascii) (cs : list ascii)
  : option (list ascii * list ascii) :=
  match cs with
  | [] => None
  | x :: r =>
      if Ascii.eqb x c then Some ([], r)
      else match split_first c r with
           | Some (a, b) => Some (x :: a, b)
           | None => None
           end
  end.

Definition split_last (c : ascii) (cs : list ascii)
  : option (list ascii * list ascii) :=
  match split_first c (rev cs) with
  | Some (b, a) => Some (rev a, rev b)
  | None => None
  end.

(** The constructor: the user name and the password stand before the
    last "@" of the host part, with ":" between them; a host part with a
    bracket that is not closed is refused. *)
Definition sim_client_init (url : string)
  : Result (option string * option string) :=
  let host := until_slash (after_scheme (list_ascii_of_string url)) in
  if xorb (existsb (Ascii.eqb "[") host) (existsb (Ascii.eqb "]") host)
  then Raise (ValueError "Invalid IPv6 URL")
  else match split_last "@" host with
       | None => Ok (None, None)
       | Some (userinfo, _) =>
           match split_first ":" userinfo with
           | Some (user, pass) =>
               Ok (Some (string_of_list_ascii user),
                   Some (string_of_list_ascii pass))
           | None => Ok (Some (string_of_list_ascii userinfo), None)
           end
       end.

Definition library : Library string Remote :=
  mkLibrary string Remote sim_client_init sim_connect sim_disconnect
            sim_get_node (fun n => n) sim_get_data_value sim_set_data_value
            sim_get_value sim_get_children sim_get_browse_name.

Definition config : Config :=
  mkConfig "opc.tcp://192.168.0.100:5005" None None.

Definition table : list (string * Variant) :=
  [("ns=2;i=2", mkVariant (PInt 42) VariantType.Int16);
   ("ns=2;i=3", mkVariant (PStr "idle") VariantType.String);
   ("ns=2;i=4", mkVariant (PBool false) VariantType.Boolean);
   ("ns=2;i=5", mkVariant (PStr "2024-01-01") VariantType.DateTime)].

(** The world when the module has just been loaded. *)
Definition start (answers : list bool) : World Remote :=
  mkWorld None 0%nat (mkRemote answers table) [] [].

End Sim.

(** The folders of the simulated server. *)
Definition sim_folders : Folders string :=
  mkFolders string (fun _ => Ok "i=84") (fun _ => Ok "i=85").

(** A configuration with a user name and no password. *)
Definition sim_config_user_only : Config :=
  mkConfig "opc.tcp://192.168.0.100:5005" (Some "operator") None.

(** A configuration whose url carries credentials, with a user name and
    no password beside it. *)
Definition sim_config_url_login : Config :=
  mkConfig "opc.tcp://admin:pw@192.168.0.100:5005" (Some "operator") None.

(** A configuration whose url the constructor refuses. *)
Definition sim_config_bad_url : Config :=
  mkConfig "opc.tcp://[bad" None None.

(** A configuration with both credentials. *)
Definition sim_config_login : Config :=
  mkConfig "opc.tcp://192.168.0.100:5005" (Some "operator") (Some "secret").

(** ** Vocabulary of the statements *)

(** The types [detect_and_convert_value] has a branch for. *)
Definition handled (vt : VariantType.t) : bool :=
  match vt with
  | VariantType.Int16 | VariantType.Int32 | VariantType.UInt16
  | VariantType.UInt32 | VariantType.Byte | VariantType.SByte
  | VariantType.Int64 | VariantType.UInt64 | VariantType.Float
  | VariantType.Double | VariantType.Boolean | VariantType.String => true
  | _ => false
  end.

Definition is_ok {A} (r : Result A) : bool :=
  match r with Ok _ => true | Raise _ => false end.

(** The raw text converts under a handled type: [int] accepts it for the
    eight integer types, [float] for the two floating-point types, and
    every text is accepted for booleans and strings. *)
Definition converts_under (vt : VariantType.t) (value : string) : bool :=
  match vt with
  | VariantType.Int16 | VariantType.Int32 | VariantType.UInt16
  | VariantType.UInt32 | VariantType.Byte | VariantType.SByte
  | VariantType.Int64 | VariantType.UInt64 => is_ok (int value)
  | VariantType.Float | VariantType.Double => is_ok (float value)
  | _ => true
  end.

Section Vocabulary.
Context {Node Remote : Type}.
Variable lib : Library Node Remote.

(** The type a node declares, when its data value can be retrieved and
    holds a variant. *)
Definition declared_type (node : Node) (r : Remote) : option VariantType.t :=
  match fst (get_data_value lib node r) with
  | Ok dv => option_map VType (dv_Value dv)
  | Raise _ => None
  end.

(** The three internal failures of the coercion: the declared type cannot
    be retrieved, it is not a handled type, or the text does not convert
    under it. *)
Definition internal_failure (node : Node) (value : string) (r : Remote)
  : Prop :=
  declared_type node r = None
  \/ (exists vt, declared_type node r = Some vt /\ handled vt = false)
  \/ (exists vt, declared_type node r = Some vt /\ handled vt = true
                 /\ converts_under vt value = false).

End Vocabulary.

Definition is_connect (c : SessionCall) : bool :=
  match c with CallConnect _ => true | CallDisconnect _ => false end.

(** How often the transport has been asked to connect. *)
Definition connect_count {Remote} (w : World Remote) : nat :=
  List.length (filter is_connect (session_calls w)).

(** The client object [get_opcua_client] connects when the global is
    [None] and the constructor returns: the next identity, the configured
    url, and the configured credentials when both are set, else the
    credentials the constructor took from the url. *)
Definition configured_client {Node Remote} (lib : Library Node Remote)
  (cfg : Config) (id : nat) : Client :=
  let (user, pass) :=
    match client_init lib (server_url cfg) with
    | Ok from_url => from_url
    | Raise _ => (None, None)
    end in
  if truthy (username cfg) && truthy (password cfg)
  then mkClient id (server_url cfg) (username cfg) (password cfg)
  else mkClient id (server_url cfg) user pass.

(** A batch item with both of its keys. *)
Definition well_formed (item : Dict) : bool :=
  match get item "node_id", get item "value" with
  | Some _, Some _ => true
  | _, _ => false
  end.

(** The first key the failure record looks up and does not find. *)
Definition missing_key (item : Dict) : string :=
  match get item "node_id" with
  | None => "node_id"
  | Some _ => "value"
  end.

(** A [dict] gaining a key: a key it has keeps its place. *)
Definition add_key (ks : list string) (k : string) : list string :=
  if str_in k ks then ks else (ks ++ [k])%list.

(** The keys of a sequence, each at its first occurrence. *)
Fixpoint first_occurrences (ks : list string) : list string :=
  match ks with
  | [] => []
  | k :: r =>
      k :: filter (fun k' => negb (String.eqb k' k)) (first_occurrences r)
  end.

(** The world with another remote state. *)
Definition with_remote {Remote} (w : World Remote) (r : Remote)
  : World Remote :=
  mkWorld (_opcua_client w) (next_id w) r (session_calls w) (stderr w).

Section BatchVocabulary.
Context {Node Remote : Type}.
Variable lib : Library Node Remote.
Variable cfg : Config.

(** Two acquisitions in a row, nothing in between. *)
Definition acquire_twice : IO Remote (option Client * option Client) :=
  first <- get_opcua_client lib cfg ;;
  second <- get_opcua_client lib cfg ;;
  ret (first, second).

(** What the server answers when the nodes are read one after the other,
    each read on the remote state the previous one left. *)
Fixpoint read_outcomes (nodes : list Node) (r : Remote)
  : list (Result Val) :=
  match nodes with
  | [] => []
  | node :: rest =>
      let (x, r') := get_value lib node r in x :: read_outcomes rest r'
  end.

(** The slot of one node in the batch read: its value, or the text of its
    own error. *)
Definition read_entry (node : Node) (x : Result Val) : Val :=
  match x with
  | Ok v => v
  | Raise e =>
      VStr ("Error reading node " ++ nodeid_to_string lib node ++ ": "
            ++ str_exn e)
  end.

(** Likewise for the display names of the children of a node. *)
Fixpoint browse_outcomes (children : list Node) (r : Remote)
  : list (Result QualifiedName) :=
  match children with
  | [] => []
  | child :: rest =>
      let (x, r') := get_browse_name lib child r in
      x :: browse_outcomes rest r'
  end.

(** The entry of one child: its node id and its name, or the placeholder
    holding the error of the name retrieval. *)
Definition browse_entry (child : Node) (x : Result QualifiedName) : Dict :=
  [("node_id", VStr (nodeid_to_string lib child));
   ("browse_name",
    VStr match x with
         | Ok name => decimal (NamespaceIndex name) ++ ":" ++ Name name
         | Raise e => "Error getting name: " ++ str_exn e
         end)].

End BatchVocabulary.

(** The eight integer types of the protocol. *)
Definition is_integer_type (vt : VariantType.t) : bool :=
  match vt with
  | VariantType.Int16 | VariantType.Int32 | VariantType.UInt16
  | VariantType.UInt32 | VariantType.Byte | VariantType.SByte
  | VariantType.Int64 | VariantType.UInt64 => true
  | _ => false
  end.

(** The pairings of payload and type that auto-detection can produce. *)
Definition auto_shape (variant : Variant) : bool :=
  match Value variant, VType variant with
  | PBool _, VariantType.Boolean
  | PInt _, VariantType.Int16
  | PInt _, VariantType.Int32
  | PInt _, VariantType.Int64
  | PFloat _, VariantType.Float
  | PStr _, VariantType.String => true
  | _, _ => false
  end.

Definition upper_char (c : ascii) : ascii := ascii_of_N (code c - 32).

(** Every spelling of a lower-case word in mixed case. *)
Fixpoint case_variants (w : string) : list string :=
  match w with
  | EmptyString => [EmptyString]
  | String c r =>
      flat_map (fun t => [String c t; String (upper_char c) t])
               (case_variants r)
  end.

(** The six words auto-detection takes for booleans. *)
Definition boolean_words : list string :=
  ["true"; "false"; "on"; "off"; "yes"; "no"].

(** The letters of those words. *)
Definition boolean_letters : list ascii :=
  list_ascii_of_string "truefalsonyo".

(** The part of the world that belongs to the session: the global, the
    identities handed out and the calls that opened or closed the
    transport. *)
Definition session_of {Remote} (w : World Remote)
  : option Client * nat * list SessionCall :=
  (_opcua_client w, next_id w, session_calls w).

(** A status record that answers a batch item: the id and the value of
    the item, and either the status Success with a verified value or a
    status that starts with Error and no verified value. *)
Definition record_for (item record : Dict) : Prop :=
  get record "node_id" = get item "node_id"
  /\ get record "value_written" = get item "value"
  /\ ((get record "status" = Some (VStr "Success")
       /\ exists new_value, get record "verified_value" = Some new_value)
      \/ (exists e, get record "status" = Some (VStr ("Error: " ++ str_exn e))
                    /\ get record "verified_value" = None)).

(** The simulated server behind a link that takes writes and refuses
    reads of values. *)
Definition sim_unreadable : Library string Sim.Remote :=
  mkLibrary string Sim.Remote Sim.sim_client_init Sim.sim_connect
            Sim.sim_disconnect Sim.sim_get_node (fun n => n)
            Sim.sim_get_data_value
            Sim.sim_set_data_value
            (fun _ r => (Raise (LibError "BadNotReadable"
                                         "The access level does not allow reading"),
                         r))
            Sim.sim_get_children Sim.sim_get_browse_name.

(** The id the library prints for a node of namespace 0: without the
    namespace. *)
Definition drop_ns0 (n : string) : string :=
  match n with
  | String "n" (String "s" (String "=" (String "0" (String ";" r)))) => r
  | _ => n
  end.

(** The simulated server with that way of printing ids. *)
Definition sim_printing : Library string Sim.Remote :=
  mkLibrary string Sim.Remote Sim.sim_client_init Sim.sim_connect
            Sim.sim_disconnect Sim.sim_get_node drop_ns0
            Sim.sim_get_data_value Sim.sim_set_data_value Sim.sim_get_value
            Sim.sim_get_children Sim.sim_get_browse_name.

(** The simulated server after a first acquisition under [Sim.config]. *)
Definition sim_client : Client :=
  mkClient 0 (server_url Sim.config) None None.

Definition sim_connected : World Sim.Remote :=
  mkWorld (Some sim_client) 1 (Sim.mkRemote [] Sim.table)
          [CallConnect sim_client] [LogConnected (server_url Sim.config)].

(** ** Sample runs *)

Example int_plain : Py.int "32768" = Py.Ok 32768.
Proof. reflexivity. Qed.
Example int_signed_spaced : Py.int "  -1_000 " = Py.Ok (-1000).
Proof. reflexivity. Qed.
Example int_rejects_word :
  Py.int "abc"
  = Py.Raise (Py.ValueError "invalid literal for int() with base 10: 'abc'").
Proof. reflexivity. Qed.
Example int_rejects_point : is_ok (Py.int "1.5") = false.
Proof. reflexivity. Qed.
Example float_accepts :
  map Py.float_literal_ok ["1.5"; "-.5e-3"; "1."; " inf "; "NaN"; "1_0.2_5"]
  = [true; true; true; true; true; true].
Proof. reflexivity. Qed.
Example float_rejects :
  map Py.float_literal_ok [""; "."; "1e"; "abc"; "1__0"; "_1"; "0x10"; "1 2"]
  = [false; false; false; false; false; false; false; false].
Proof. reflexivity. Qed.
Example lower_mixed : Py.lower "TrUe" = "true".
Proof. reflexivity. Qed.

Example auto_true : auto_detect_variant "YES"
  = Ok (mkVariant (PBool true) VariantType.Boolean).
Proof. reflexivity. Qed.
Example auto_off : auto_detect_variant "Off"
  = Ok (mkVariant (PBool false) VariantType.Boolean).
Proof. reflexivity. Qed.
Example auto_one : auto_detect_variant "1"
  = Ok (mkVariant (PInt 1) VariantType.Int16).
Proof. reflexivity. Qed.
Example auto_big : auto_detect_variant "-2147483649"
  = Ok (mkVariant (PInt (-2147483649)) VariantType.Int64).
Proof. reflexivity. Qed.
Example auto_float : auto_detect_variant "10.5"
  = Ok (mkVariant (PFloat (FloatOf "10.5")) VariantType.Float).
Proof. reflexivity. Qed.
Example auto_text : auto_detect_variant "active"
  = Ok (mkVariant (PStr "active") VariantType.String).
Proof. reflexivity. Qed.

(** ** The coercion engine *)

Lemma str_in_In (x : string) (ws : list string) :
  str_in x ws = true <-> In x ws.
Proof.
  unfold str_in. rewrite existsb_exists. split.
  - intros [w [Hin Heq]]. apply String.eqb_eq in Heq. now subst.
  - intros Hin. exists x. split; [assumption | apply String.eqb_refl].
Qed.

Lemma int_raises_ValueError (s : string) (e : Exn) :
  int s = Raise e -> is_ValueError e = true.
Proof.
  unfold int. destruct (split_sign _) as [neg body].
  destruct (digits 0 false body); [destruct (Nat.ltb _ _) |];
    intros H; inversion H; reflexivity.
Qed.

Lemma float_raises_ValueError (s : string) (e : Exn) :
  float s = Raise e -> is_ValueError e = true.
Proof.
  unfold float. destruct (float_literal_ok s); intros H; inversion H.
  reflexivity.
Qed.

(** Auto-detection always produces a variant. *)
Lemma auto_detect_variant_returns (value : string) :
  exists variant, auto_detect_variant value = Ok variant.
Proof.
  unfold auto_detect_variant.
  destruct (str_in (lower value) _); [eauto |].
  destruct (int value) as [i | e] eqn:Hint; simpl; [eauto |].
  rewrite (int_raises_ValueError _ _ Hint).
  destruct (float value) as [f | e'] eqn:Hfloat; simpl; [eauto |].
  rewrite (float_raises_ValueError _ _ Hfloat). eauto.
Qed.

Section Coercion.
Context {Node Remote : Type}.
Variable lib : Library Node Remote.

Ltac run_detect :=
  unfold detect_and_convert_value, declared_type, try_except, io_bind,
    remote_op, attr, lift, ret, raise, print; simpl.

(** Without a declared type the result is the auto-detected variant. *)
Lemma detect_undetermined (node : Node) (value : string) (w : World Remote) :
  declared_type lib node (remote w) = None ->
  fst (detect_and_convert_value lib node value w) = auto_detect_variant value.
Proof.
  run_detect.
  destruct (get_data_value lib node (remote w)) as [[[[[p vt] |]] | e] r];
    simpl; intros H; try discriminate; reflexivity.
Qed.

(** With a declared type that has no branch, likewise. *)
Lemma detect_unhandled (node : Node) (value : string) (w : World Remote)
  (vt : VariantType.t) :
  declared_type lib node (remote w) = Some vt ->
  handled vt = false ->
  fst (detect_and_convert_value lib node value w) = auto_detect_variant value.
Proof.
  run_detect.
  destruct (get_data_value lib node (remote w)) as [[[[[p vt'] |]] | e] r];
    simpl; intros H; inversion H; subst vt'.
  destruct vt; simpl; intros Hh; try discriminate;
    destruct (auto_detect_variant value); reflexivity.
Qed.

(** With a handled type the text does not convert under, likewise. *)
Lemma detect_unconvertible (node : Node) (value : string) (w : World Remote)
  (vt : VariantType.t) :
  declared_type lib node (remote w) = Some vt ->
  converts_under vt value = false ->
  fst (detect_and_convert_value lib node value w) = auto_detect_variant value.
Proof.
  run_detect.
  destruct (get_data_value lib node (remote w)) as [[[[[p vt'] |]] | e] r];
    simpl; intros H; inversion H; subst vt'.
  destruct vt; simpl; try discriminate;
    destruct (int value); destruct (float value);
    simpl; intros Hc; try discriminate; reflexivity.
Qed.

(** With a handled type the text converts under, the variant has it. *)
Lemma detect_typed (node : Node) (value : string) (w : World Remote)
  (vt : VariantType.t) :
  declared_type lib node (remote w) = Some vt ->
  handled vt = true ->
  converts_under vt value = true ->
  exists payload,
    fst (detect_and_convert_value lib node value w)
    = Ok (mkVariant payload vt).
Proof.
  run_detect.
  destruct (get_data_value lib node (remote w)) as [[[[[p vt'] |]] | e] r];
    simpl; intros H; inversion H; subst vt'.
  destruct vt; simpl; try discriminate; intros _;
    destruct (int value); destruct (float value);
    simpl; intros Hc; try discriminate; eauto.
Qed.

End Coercion.

(** C5.  A text that [int] reads as [v] and that is none of the six
    boolean words is auto-detected as the integer [v] with the width
    chosen by range: Int16 on [-32768, 32767], Int32 on the rest of
    [-2147483648, 2147483647], Int64 everywhere else.  At the boundary,
    "32767" is an Int16 and "32768" an Int32. *)
Theorem auto_detect_integer_width :
  (forall (value : string) (v : Z),
      int value = Ok v ->
      str_in (lower value) ["true"; "false"; "on"; "off"; "yes"; "no"] = false ->
      exists vt,
        auto_detect_variant value = Ok (mkVariant (PInt v) vt)
        /\ (-32768 <= v <= 32767 -> vt = VariantType.Int16)
        /\ (32768 <= v <= 2147483647 \/ -2147483648 <= v < -32768 ->
            vt = VariantType.Int32)
        /\ (v < -2147483648 \/ 2147483647 < v -> vt = VariantType.Int64))
  /\ auto_detect_variant "32767" = Ok (mkVariant (PInt 32767) VariantType.Int16)
  /\ auto_detect_variant "32768" = Ok (mkVariant (PInt 32768) VariantType.Int32).
Proof.
  split; [| split; reflexivity].
  intros value v Hint Hword. unfold auto_detect_variant.
  rewrite Hword, Hint. simpl. unfold int_variant.
  destruct ((-32768 <=? v) && (v <=? 32767)) eqn:H16;
    [| destruct ((-2147483648 <=? v) && (v <=? 2147483647)) eqn:H32];
    eexists; (split; [reflexivity |]);
    repeat match goal with
           | H : (_ && _) = true |- _ => apply andb_true_iff in H; destruct H
           | H : (_ && _) = false |- _ => apply andb_false_iff in H
           | H : (_ <=? _) = true |- _ => apply Z.leb_le in H
           | H : (_ <=? _) = false |- _ => apply Z.leb_gt in H
           end;
    repeat split; intros; try reflexivity; exfalso; lia.
Qed.

Lemma auto_detect_integer_width_witness :
  exists vt,
    auto_detect_variant "-40000" = Ok (mkVariant (PInt (-40000)) vt)
    /\ vt = VariantType.Int32.
Proof.
  destruct (proj1 auto_detect_integer_width "-40000" (-40000))
    as [vt [Hrun [_ [H32 _]]]]; [reflexivity | reflexivity |].
  exists vt. split; [exact Hrun | apply H32; right; lia].
Defined.

(** C8.  A text whose lower case is one of true, false, on, off, yes, no
    is auto-detected as a Boolean that is true exactly when the lower case
    is in (true, on, yes, 1); under a declared Boolean type every text
    becomes a Boolean that is true exactly when its lower case is in
    (true, 1, on, yes), and false otherwise. *)
Theorem boolean_coercion :
  (forall value : string,
      In (lower value) ["true"; "false"; "on"; "off"; "yes"; "no"] ->
      exists b,
        auto_detect_variant value = Ok (mkVariant (PBool b) VariantType.Boolean)
        /\ (b = true <-> In (lower value) ["true"; "on"; "yes"; "1"]))
  /\ (forall (Node Remote : Type) (lib : Library Node Remote) (node : Node)
             (value : string) (w : World Remote),
         declared_type lib node (remote w) = Some VariantType.Boolean ->
         exists b,
           fst (detect_and_convert_value lib node value w)
           = Ok (mkVariant (PBool b) VariantType.Boolean)
           /\ (b = true <-> In (lower value) ["true"; "1"; "on"; "yes"])).
Proof.
  split.
  - intros value Hword. apply str_in_In in Hword.
    unfold auto_detect_variant. rewrite Hword.
    eexists. split; [reflexivity | apply str_in_In].
  - intros Node Remote lib node value w.
    unfold detect_and_convert_value, declared_type, try_except, io_bind,
      remote_op, attr, lift, ret, raise, print; simpl.
    destruct (get_data_value lib node (remote w)) as [[[[[p vt] |]] | e] r];
      simpl; intros H; inversion H; subst vt; simpl.
    eexists. split; [reflexivity | apply str_in_In].
Qed.

Lemma boolean_coercion_witness :
  (exists b,
      auto_detect_variant "On" = Ok (mkVariant (PBool b) VariantType.Boolean)
      /\ (b = true <-> In (lower "On") ["true"; "on"; "yes"; "1"]))
  /\ (exists b,
         fst (detect_and_convert_value Sim.library "ns=2;i=4" "1"
                (Sim.start []))
         = Ok (mkVariant (PBool b) VariantType.Boolean)
         /\ (b = true <-> In (lower "1") ["true"; "1"; "on"; "yes"])).
Proof.
  split.
  - apply (proj1 boolean_coercion "On"). simpl. tauto.
  - apply (proj2 boolean_coercion _ _ Sim.library "ns=2;i=4" "1"
             (Sim.start [])).
    reflexivity.
Defined.

(** C4.  The coercion never raises: for every library, node handle, text
    and world it returns a variant; and on each internal failure (no
    declared type retrieved, a declared type without a branch, a text that
    does not convert under the declared type) the variant is the one
    auto-detection gives for the raw text, which itself always returns. *)
Theorem detect_and_convert_value_never_raises
  (Node Remote : Type) (lib : Library Node Remote) (node : Node)
  (value : string) (w : World Remote) :
  (exists variant,
      fst (detect_and_convert_value lib node value w) = Ok variant)
  /\ (exists variant, auto_detect_variant value = Ok variant)
  /\ (internal_failure lib node value (remote w) ->
      fst (detect_and_convert_value lib node value w)
      = auto_detect_variant value).
Proof.
  assert (Hfail : internal_failure lib node value (remote w) ->
                  fst (detect_and_convert_value lib node value w)
                  = auto_detect_variant value).
  { intros [Hnone | [[vt [Hvt Hh]] | [vt [Hvt [_ Hc]]]]].
    - now apply detect_undetermined.
    - now apply detect_unhandled with vt.
    - now apply detect_unconvertible with vt. }
  split; [| split; [apply auto_detect_variant_returns | exact Hfail]].
  destruct (declared_type lib node (remote w)) as [vt |] eqn:Hvt.
  - destruct (handled vt) eqn:Hh; [destruct (converts_under vt value) eqn:Hc |].
    + destruct (detect_typed lib node value w vt Hvt Hh Hc) as [p Hp]. eauto.
    + rewrite Hfail; [apply auto_detect_variant_returns |].
      right; right. eauto.
    + rewrite Hfail; [apply auto_detect_variant_returns |].
      right; left. eauto.
  - rewrite Hfail; [apply auto_detect_variant_returns | now left].
Qed.

Lemma detect_and_convert_value_never_raises_witness :
  fst (detect_and_convert_value Sim.library "ns=2;i=2" "abc" (Sim.start []))
  = Ok (mkVariant (PStr "abc") VariantType.String).
Proof.
  destruct (detect_and_convert_value_never_raises
              _ _ Sim.library "ns=2;i=2" "abc" (Sim.start []))
    as [_ [_ Hfail]].
  rewrite Hfail; [reflexivity |].
  right; right. exists VariantType.Int16. repeat split; reflexivity.
Defined.

(** C3, as the program has it.  When the declared type of the node is
    retrieved, is one of the twelve handled types and the text converts
    under it, the variant carries exactly that type; when no declared type
    is retrieved, or it is not a handled type, or the text does not
    convert under it, the variant is the one inferred from the lexical
    shape of the text. *)
Theorem declared_type_kept_when_convertible
  (Node Remote : Type) (lib : Library Node Remote) (node : Node)
  (value : string) (w : World Remote) :
  (forall vt,
      declared_type lib node (remote w) = Some vt ->
      handled vt = true ->
      converts_under vt value = true ->
      exists payload,
        fst (detect_and_convert_value lib node value w)
        = Ok (mkVariant payload vt))
  /\ (declared_type lib node (remote w) = None ->
      fst (detect_and_convert_value lib node value w)
      = auto_detect_variant value)
  /\ (forall vt,
         declared_type lib node (remote w) = Some vt ->
         handled vt = false \/ converts_under vt value = false ->
         fst (detect_and_convert_value lib node value w)
         = auto_detect_variant value).
Proof.
  split; [| split].
  - intros vt. apply detect_typed.
  - apply detect_undetermined.
  - intros vt Hvt [Hh | Hc].
    + now apply detect_unhandled with vt.
    + now apply detect_unconvertible with vt.
Qed.

Lemma declared_type_kept_when_convertible_witness :
  (exists payload,
      fst (detect_and_convert_value Sim.library "ns=2;i=2" "7" (Sim.start []))
      = Ok (mkVariant payload VariantType.Int16))
  /\ fst (detect_and_convert_value Sim.library "ns=2;i=9" "7" (Sim.start []))
     = auto_detect_variant "7"
  /\ fst (detect_and_convert_value Sim.library "ns=2;i=5" "7" (Sim.start []))
     = auto_detect_variant "7".
Proof.
  split; [| split].
  - apply (proj1 (declared_type_kept_when_convertible
                    _ _ Sim.library "ns=2;i=2" "7" (Sim.start [])));
      reflexivity.
  - apply (proj1 (proj2 (declared_type_kept_when_convertible
                    _ _ Sim.library "ns=2;i=9" "7" (Sim.start []))));
      reflexivity.
  - apply (proj2 (proj2 (declared_type_kept_when_convertible
                    _ _ Sim.library "ns=2;i=5" "7" (Sim.start [])))
             VariantType.DateTime); [reflexivity | left; reflexivity].
Defined.

(** C3, as the claim states it, fails: a node whose declared type is
    retrieved as Int16 receives a String variant for the text "abc", and a
    node whose declared type is retrieved as DateTime receives an Int16
    variant for the text "5". *)
Lemma declared_type_not_always_kept :
  declared_type Sim.library "ns=2;i=2" (remote (Sim.start []))
  = Some VariantType.Int16
  /\ fst (detect_and_convert_value Sim.library "ns=2;i=2" "abc" (Sim.start []))
     = Ok (mkVariant (PStr "abc") VariantType.String)
  /\ VariantType.String <> VariantType.Int16
  /\ declared_type Sim.library "ns=2;i=5" (remote (Sim.start []))
     = Some VariantType.DateTime
  /\ fst (detect_and_convert_value Sim.library "ns=2;i=5" "5" (Sim.start []))
     = Ok (mkVariant (PInt 5) VariantType.Int16)
  /\ VariantType.Int16 <> VariantType.DateTime.
Proof.
  repeat split; try reflexivity; discriminate.
Qed.

(** ** The lazy session *)

Section Session.
Context {Node Remote : Type}.
Variable lib : Library Node Remote.
Variable cfg : Config.

Ltac run_acquire :=
  unfold get_opcua_client, client_connect, set_user, set_password,
    new_Client, write_global, read_global, record_call, remote_op, print,
    attr, io_bind, ret, raise; simpl.

(** With a client in the global, acquiring returns it and touches
    nothing. *)
Lemma get_opcua_client_present (w : World Remote) (c : Client) :
  _opcua_client w = Some c ->
  get_opcua_client lib cfg w = (Ok (Some c), w).
Proof.
  intros Hg. run_acquire. repeat (rewrite Hg; simpl). reflexivity.
Qed.

(** With no client in the global, acquiring builds a client, which may
    raise and then changes nothing; it stores the client in the global,
    asks the transport to connect once, and only then looks at the
    answer. *)
Lemma get_opcua_client_absent (w : World Remote) :
  _opcua_client w = None ->
  let c := configured_client lib cfg (next_id w) in
  get_opcua_client lib cfg w
  = match client_init lib (server_url cfg) with
    | Raise e => (Raise e, w)
    | Ok _ =>
        match connect lib c (remote w) with
        | (Ok _, r) =>
            (Ok (Some c),
             mkWorld (Some c) (S (next_id w)) r
                     (session_calls w ++ [CallConnect c])
                     (stderr w ++ [LogConnected (server_url cfg)]))
        | (Raise e, r) =>
            (Raise e,
             mkWorld (Some c) (S (next_id w)) r
                     (session_calls w ++ [CallConnect c]) (stderr w))
        end
    end.
Proof.
  intros Hg. unfold configured_client. run_acquire. rewrite Hg.
  destruct (client_init lib (server_url cfg)) as [[user pass] | e]; simpl;
    [| reflexivity].
  destruct (truthy (username cfg) && truthy (password cfg)); simpl;
    match goal with
    | |- context [connect lib ?c ?r] =>
        destruct (connect lib c r) as [[[] | e] r']
    end; reflexivity.
Qed.

(** Whatever acquiring returns is a client, and it is the one the global
    holds afterwards. *)
Lemma get_opcua_client_some (w w1 : World Remote) (g : option Client) :
  get_opcua_client lib cfg w = (Ok g, w1) ->
  exists c, g = Some c /\ _opcua_client w1 = Some c.
Proof.
  destruct (_opcua_client w) as [c |] eqn:Hg.
  - rewrite (get_opcua_client_present w c Hg). intros H.
    inversion H; subst. eauto.
  - rewrite (get_opcua_client_absent w Hg).
    destruct (client_init lib (server_url cfg)) as [from_url | e0];
      [| discriminate].
    destruct (connect lib _ (remote w)) as [[[] | e] r]; intros H;
      inversion H; subst. eauto.
Qed.

Lemma connect_count_app (w : World Remote) (c : Client) (n : nat)
  (r : Remote) (g : option Client) (log : list LogLine) :
  connect_count (mkWorld g n r (session_calls w ++ [CallConnect c]) log)
  = S (connect_count w).
Proof.
  unfold connect_count. simpl. rewrite filter_app, length_app. simpl.
  apply Nat.add_1_r.
Qed.

(** When the client is built and the connection attempt of a first
    acquisition fails, the client that never connected stays in the
    global, and the next acquisition returns it without asking the
    transport again. *)
Lemma get_opcua_client_after_failed_connect (w : World Remote) (e : Exn) :
  _opcua_client w = None ->
  is_ok (client_init lib (server_url cfg)) = true ->
  fst (connect lib (configured_client lib cfg (next_id w)) (remote w))
  = Raise e ->
  exists w1,
    get_opcua_client lib cfg w = (Raise e, w1)
    /\ _opcua_client w1 = Some (configured_client lib cfg (next_id w))
    /\ get_opcua_client lib cfg w1
       = (Ok (Some (configured_client lib cfg (next_id w))), w1).
Proof.
  intros Hg Hinit Hc. rewrite (get_opcua_client_absent w Hg).
  destruct (client_init lib (server_url cfg)) as [from_url | e0];
    [| discriminate].
  destruct (connect lib _ (remote w)) as [[[] | e'] r]; simpl in Hc;
    inversion Hc; subst e'.
  eexists. split; [reflexivity |]. split; [reflexivity |].
  now apply get_opcua_client_present.
Qed.

(** Releasing never raises and always leaves the global cleared, also
    when the disconnect itself raised. *)
Lemma cleanup_client_clears (w : World Remote) :
  fst (cleanup_client lib w) = Ok tt
  /\ _opcua_client (snd (cleanup_client lib w)) = None.
Proof.
  unfold cleanup_client, client_disconnect, try_finally, try_except,
    write_global, read_global, record_call, remote_op, print, attr, io_bind,
    ret, raise; simpl.
  destruct (_opcua_client w) as [c |] eqn:Hg; simpl.
  - rewrite Hg. simpl.
    destruct (disconnect lib c (remote w)) as [[[] | e] r]; simpl; auto.
  - auto.
Qed.

End Session.

(** C6.  When an acquisition returns, a second one right after it returns
    the same client object and leaves the world exactly as the first left
    it: no connect, no new object, nothing printed, the remote state
    untouched.  Starting without a session, the first acquisition has
    applied the library's connect exactly once, to the client it built and
    to the remote state it found, that connect returned, and the remote
    state after both acquisitions is the one that single connect left;
    starting with a session, the two acquisitions change nothing at
    all. *)
Theorem acquire_is_idempotent
  (Node Remote : Type) (lib : Library Node Remote) (cfg : Config)
  (w w1 : World Remote) (first : option Client) :
  get_opcua_client lib cfg w = (Ok first, w1) ->
  (exists c, first = Some c /\ _opcua_client w1 = Some c)
  /\ get_opcua_client lib cfg w1 = (Ok first, w1)
  /\ acquire_twice lib cfg w = (Ok (first, first), w1)
  /\ (_opcua_client w = None -> connect_count w1 = S (connect_count w))
  /\ (_opcua_client w = None ->
      first = Some (configured_client lib cfg (next_id w))
      /\ connect lib (configured_client lib cfg (next_id w)) (remote w)
         = (Ok tt, remote w1)
      /\ remote (snd (acquire_twice lib cfg w))
         = snd (connect lib (configured_client lib cfg (next_id w))
                        (remote w))
      /\ session_calls w1
         = (session_calls w
            ++ [CallConnect (configured_client lib cfg (next_id w))])%list
      /\ stderr w1 = (stderr w ++ [LogConnected (server_url cfg)])%list)
  /\ (_opcua_client w <> None -> w1 = w).
Proof.
  intros Hfirst.
  destruct (get_opcua_client_some lib cfg w w1 first Hfirst) as [c [-> Hg1]].
  assert (Hsecond : get_opcua_client lib cfg w1 = (Ok (Some c), w1))
    by now apply get_opcua_client_present.
  assert (Htwice : acquire_twice lib cfg w = (Ok (Some c, Some c), w1)).
  { unfold acquire_twice, io_bind, ret. rewrite Hfirst, Hsecond.
    reflexivity. }
  split; [eauto |]. split; [exact Hsecond |]. split; [exact Htwice |].
  split; [| split].
  - intros Hg. rewrite (get_opcua_client_absent lib cfg w Hg) in Hfirst.
    destruct (client_init lib (server_url cfg)) as [from_url | e0];
      [| discriminate].
    destruct (connect lib _ (remote w)) as [[[] | e] r]; inversion Hfirst.
    apply connect_count_app.
  - intros Hg. rewrite Htwice. simpl.
    rewrite (get_opcua_client_absent lib cfg w Hg) in Hfirst.
    destruct (client_init lib (server_url cfg)) as [from_url | e0];
      [| discriminate].
    destruct (connect lib (configured_client lib cfg (next_id w)) (remote w))
      as [[[] | e] r]; inversion Hfirst; subst.
    simpl. repeat split.
  - destruct (_opcua_client w) as [c0 |] eqn:Hg; [| congruence].
    intros _. rewrite (get_opcua_client_present lib cfg w c0 Hg) in Hfirst.
    now inversion Hfirst.
Qed.

Lemma acquire_is_idempotent_witness :
  exists c w1,
    acquire_twice Sim.library Sim.config (Sim.start [])
    = (Ok (Some c, Some c), w1)
    /\ connect_count w1 = 1%nat
    /\ Sim.sim_connect c (remote (Sim.start [])) = (Ok tt, remote w1).
Proof.
  pose (c := mkClient 0 (server_url Sim.config) None None).
  pose (w1 := mkWorld (Some c) 1 (Sim.mkRemote [] Sim.table) [CallConnect c]
                      [LogConnected (server_url Sim.config)]).
  destruct (acquire_is_idempotent _ _ Sim.library Sim.config (Sim.start [])
              w1 (Some c) eq_refl)
    as [_ [_ [Htwice [Hcount [Hconnect _]]]]].
  destruct (Hconnect eq_refl) as [_ [Hok _]].
  exists c, w1. split; [exact Htwice |].
  split; [exact (Hcount eq_refl) | exact Hok].
Defined.

(** C2, on a refused connection: the program does not clear the global.
    The first connection attempt is refused and the acquisition raises;
    the global keeps the client that never connected; the next
    acquisition, which the server would now accept, returns that client
    and asks the transport for nothing: one connect call in all, the
    failed one. *)
Theorem failed_connect_is_not_retried :
  let stale := mkClient 0 (server_url Sim.config) None None in
  let w1 := snd (get_opcua_client Sim.library Sim.config (Sim.start [false])) in
  fst (get_opcua_client Sim.library Sim.config (Sim.start [false]))
  = Raise (LibError "ConnectionRefusedError" "[Errno 111] Connection refused")
  /\ _opcua_client w1 = Some stale
  /\ get_opcua_client Sim.library Sim.config w1 = (Ok (Some stale), w1)
  /\ session_calls w1 = [CallConnect stale]
  /\ Sim.sim_connect stale (remote w1) = (Ok tt, remote w1).
Proof.
  repeat split.
Qed.

(** ** Dictionaries *)

Section Dictionaries.
Local Open Scope list_scope.

Lemma get_setitem (d : Dict) (k : string) (v : Val) (k' : string) :
  get (setitem d k v) k' = if String.eqb k' k then Some v else get d k'.
Proof.
  induction d as [| [k0 v0] d IH]; simpl.
  - reflexivity.
  - destruct (String.eqb k k0) eqn:Hk; simpl.
    + apply String.eqb_eq in Hk. subst k0.
      destruct (String.eqb k' k); reflexivity.
    + rewrite IH. destruct (String.eqb k' k0) eqn:Hk0; [| reflexivity].
      apply String.eqb_eq in Hk0. subst k0.
      rewrite String.eqb_sym, Hk. reflexivity.
Qed.

Lemma get_app (a b : Dict) (k : string) :
  get (a ++ b) k = match get a k with Some v => Some v | None => get b k end.
Proof.
  induction a as [| [k0 v0] a IH]; simpl; [reflexivity |].
  destruct (String.eqb k k0); [reflexivity | exact IH].
Qed.

(** The value under a key of a comprehension is the one of the last pair
    with that key. *)
Lemma get_fold_setitem (kvs : list (string * Val)) (d : Dict) (k : string) :
  get (fold_left (fun d kv => setitem d (fst kv) (snd kv)) kvs d) k
  = match get (rev kvs) k with Some v => Some v | None => get d k end.
Proof.
  revert d. induction kvs as [| [k0 v0] kvs IH]; intros d; simpl.
  - reflexivity.
  - rewrite IH, get_app, get_setitem. simpl.
    destruct (get (rev kvs) k); [reflexivity |].
    destruct (String.eqb k k0); reflexivity.
Qed.

Lemma keys_setitem (d : Dict) (k : string) (v : Val) :
  map fst (setitem d k v) = add_key (map fst d) k.
Proof.
  unfold add_key, str_in.
  induction d as [| [k0 v0] d IH]; simpl; [reflexivity |].
  destruct (String.eqb k k0); simpl; [reflexivity |].
  rewrite IH. destruct (existsb (String.eqb k) (map fst d)); reflexivity.
Qed.

Lemma keys_fold_setitem (kvs : list (string * Val)) (d : Dict) :
  map fst (fold_left (fun d kv => setitem d (fst kv) (snd kv)) kvs d)
  = fold_left add_key (map fst kvs) (map fst d).
Proof.
  revert d. induction kvs as [| [k0 v0] kvs IH]; intros d; simpl.
  - reflexivity.
  - rewrite IH, keys_setitem. reflexivity.
Qed.

Lemma filter_twice {A} (f g : A -> bool) (l : list A) :
  filter f (filter g l) = filter (fun x => g x && f x) l.
Proof.
  induction l as [| x l IH]; simpl; [reflexivity |].
  destruct (g x); simpl; [destruct (f x) |]; rewrite IH; reflexivity.
Qed.

Lemma str_in_app (x : string) (a b : list string) :
  str_in x (a ++ b) = str_in x a || str_in x b.
Proof. unfold str_in. apply existsb_app. Qed.

Lemma fold_add_key (ks acc : list string) :
  fold_left add_key ks acc
  = (acc ++ filter (fun k => negb (str_in k acc)) (first_occurrences ks))%list.
Proof.
  revert acc. induction ks as [| k ks IH]; intros acc; simpl.
  - now rewrite app_nil_r.
  - rewrite IH. unfold add_key.
    destruct (str_in k acc) eqn:Hk; simpl.
    + f_equal. rewrite filter_twice. apply filter_ext. intros x.
      destruct (String.eqb x k) eqn:Hx; [| reflexivity].
      apply String.eqb_eq in Hx. subst x. now rewrite Hk.
    + rewrite <- app_assoc. simpl. do 2 f_equal.
      rewrite filter_twice. apply filter_ext. intros x.
      rewrite str_in_app. unfold str_in at 2. simpl.
      rewrite orb_false_r, negb_orb. apply andb_comm.
Qed.

(** The keys of a comprehension are the keys of its pairs, each at its
    first occurrence. *)
Lemma keys_dict_of (kvs : list (string * Val)) :
  map fst (dict_of kvs) = first_occurrences (map fst kvs).
Proof.
  unfold dict_of. rewrite keys_fold_setitem, fold_add_key. simpl.
  induction (first_occurrences (map fst kvs)) as [| k l IH];
    simpl; [reflexivity |].
  now rewrite IH.
Qed.

Lemma setitem_fresh (d : Dict) (k : string) (v : Val) :
  ~ In k (map fst d) -> setitem d k v = (d ++ [(k, v)])%list.
Proof.
  induction d as [| [k0 v0] d IH]; simpl; intros Hk; [reflexivity |].
  destruct (String.eqb k k0) eqn:Heq.
  - apply String.eqb_eq in Heq. subst k0. tauto.
  - rewrite IH; tauto.
Qed.

Lemma fold_setitem_distinct (kvs : list (string * Val)) (d : Dict) :
  NoDup (map fst d ++ map fst kvs) ->
  fold_left (fun d kv => setitem d (fst kv) (snd kv)) kvs d = (d ++ kvs)%list.
Proof.
  revert d. induction kvs as [| [k0 v0] kvs IH]; intros d Hnd; simpl.
  - now rewrite app_nil_r.
  - simpl in Hnd. rewrite setitem_fresh.
    + rewrite IH.
      * now rewrite <- app_assoc.
      * rewrite map_app. simpl. rewrite <- app_assoc. exact Hnd.
    + apply NoDup_remove_2 in Hnd. intros Hin. apply Hnd.
      apply in_or_app. now left.
Qed.

(** With pairwise distinct keys a comprehension keeps every pair, in
    order. *)
Lemma dict_of_distinct (kvs : list (string * Val)) :
  NoDup (map fst kvs) -> dict_of kvs = kvs.
Proof.
  intros Hnd. unfold dict_of. now rewrite fold_setitem_distinct.
Qed.

Lemma first_occurrences_subset (ks : list string) (k : string) :
  In k (first_occurrences ks) <-> In k ks.
Proof.
  induction ks as [| k0 ks IH]; simpl; [tauto |].
  rewrite filter_In, IH. split.
  - intros [H | [H _]]; tauto.
  - intros [H | H]; [now left |].
    destruct (String.eqb k k0) eqn:Hk.
    + apply String.eqb_eq in Hk. now left.
    + right. now split.
Qed.

Lemma first_occurrences_NoDup (ks : list string) :
  NoDup (first_occurrences ks).
Proof.
  induction ks as [| k ks IH]; simpl; constructor.
  - rewrite filter_In. intros [_ H]. now rewrite String.eqb_refl in H.
  - now apply NoDup_filter.
Qed.

Lemma combine_map_fst {A B C} (f : A -> C) (a : list A) (b : list B) :
  map (fun ab => (f (fst ab), snd ab)) (combine a b) = combine (map f a) b.
Proof.
  revert b. induction a as [| x a IH]; intros [| y b]; simpl;
    try reflexivity.
  now rewrite IH.
Qed.

Lemma map_fst_combine {A B} (a : list A) (b : list B) :
  List.length a = List.length b -> map fst (combine a b) = a.
Proof.
  revert b. induction a as [| x a IH]; intros [| y b]; simpl;
    try reflexivity; try discriminate.
  intros H. f_equal. apply IH. congruence.
Qed.

End Dictionaries.

(** ** The batch read *)

Section BatchRead.
Context {Node Remote : Type}.
Variable lib : Library Node Remote.
Variable cfg : Config.

Lemma get_nodes_length (client : option Client) (node_ids : list string)
  (nodes : list Node) :
  get_nodes lib client node_ids = Ok nodes ->
  List.length nodes = List.length node_ids.
Proof.
  revert nodes. induction node_ids as [| nid ids IH]; intros nodes; simpl.
  - intros H. inversion H. reflexivity.
  - destruct (client_get_node lib client (VStr nid)); simpl;
      [| discriminate].
    destruct (get_nodes lib client ids); simpl; [| discriminate].
    intros H. inversion H. simpl. f_equal. now apply IH.
Qed.

Lemma read_outcomes_length (nodes : list Node) (r : Remote) :
  List.length (read_outcomes lib nodes r) = List.length nodes.
Proof.
  revert r. induction nodes as [| node nodes IH]; intros r; simpl.
  - reflexivity.
  - destruct (get_value lib node r) as [x r']. simpl. now rewrite IH.
Qed.

(** The loop never raises: it reads every node in turn and appends the
    slot of each, a failed read included. *)
Lemma read_loop_runs (nodes : list Node) (values : list Val)
  (w : World Remote) :
  exists r',
    read_loop lib nodes values w
    = (Ok (values
           ++ map (fun nx => read_entry lib (fst nx) (snd nx))
                  (combine nodes (read_outcomes lib nodes (remote w))))%list,
       with_remote w r').
Proof.
  revert values w. induction nodes as [| node nodes IH]; intros values w.
  - exists (remote w). destruct w. simpl. now rewrite app_nil_r.
  - simpl. unfold read_node, try_except, io_bind, remote_op, ret.
    destruct (get_value lib node (remote w)) as [[v | e] r1]; simpl;
      match goal with
      | |- context [read_loop lib nodes ?vs ?w1] =>
          destruct (IH vs w1) as [r' Hrun]; rewrite Hrun
      end;
      exists r'; simpl; rewrite <- app_assoc; reflexivity.
Qed.

End BatchRead.

(** C1, as the program has it.  When the session is acquired and every id
    of the list resolves, every node is read, in input order, a failed
    read giving that id's own error text and the reads after it going on.
    The tool returns a dictionary keyed by the id the library prints for
    each resolved node, [node.nodeid.to_string()], not by the text given:
    one entry per distinct printed id, in the order of first occurrence,
    a printed id that occurs again holding the slot of its last read.
    When the printed ids are pairwise distinct this is exactly one entry
    per input id, in input order. *)
Theorem read_multiple_one_entry_per_distinct_id
  (Node Remote : Type) (lib : Library Node Remote) (cfg : Config)
  (node_ids : list string) (w w1 : World Remote) (client : Client)
  (nodes : list Node) :
  get_opcua_client lib cfg w = (Ok (Some client), w1) ->
  get_nodes lib (Some client) node_ids = Ok nodes ->
  let keys := map (nodeid_to_string lib) nodes in
  let values :=
    map (fun nx => read_entry lib (fst nx) (snd nx))
        (combine nodes (read_outcomes lib nodes (remote w1))) in
  exists results,
    fst (read_multiple_opcua_nodes lib cfg node_ids w)
    = Ok (ReadMultiple results)
    /\ List.length values = List.length node_ids
    /\ map fst results = first_occurrences keys
    /\ (forall k, get results k = get (rev (combine keys values)) k)
    /\ (NoDup keys -> results = combine keys values)
    /\ NoDup (map fst results)
    /\ (forall k, In k (map fst results) <-> In k keys)
    /\ (NoDup keys -> List.length results = List.length node_ids).
Proof.
  intros Hacq Hnodes keys values.
  assert (Hlen : List.length values = List.length nodes).
  { unfold values. rewrite length_map, length_combine, read_outcomes_length.
    apply Nat.min_id. }
  assert (Hkeys : map fst (combine keys values) = keys).
  { apply map_fst_combine. unfold keys. now rewrite length_map. }
  exists (dict_of (combine keys values)).
  split; [| split; [| split; [| split; [| split; [| split; [| split]]]]]].
  - unfold read_multiple_opcua_nodes, try_except, io_bind, lift, ret.
    rewrite Hacq, Hnodes.
    destruct (read_loop_runs lib nodes [] w1) as [r' Hrun].
    rewrite Hrun. simpl. fold values. unfold keys.
    now rewrite combine_map_fst.
  - rewrite Hlen. now apply get_nodes_length with lib (Some client).
  - now rewrite keys_dict_of, Hkeys.
  - intros k. unfold dict_of. rewrite get_fold_setitem.
    destruct (get (rev (combine keys values)) k); reflexivity.
  - intros Hnd. apply dict_of_distinct. now rewrite Hkeys.
  - rewrite keys_dict_of, Hkeys. apply first_occurrences_NoDup.
  - intros k. rewrite keys_dict_of, Hkeys. apply first_occurrences_subset.
  - intros Hnd. rewrite dict_of_distinct by now rewrite Hkeys.
    rewrite length_combine. unfold keys at 1. rewrite length_map, Hlen.
    rewrite Nat.min_id. now apply get_nodes_length with lib (Some client).
Qed.

Lemma read_multiple_one_entry_per_distinct_id_witness :
  exists results,
    fst (read_multiple_opcua_nodes Sim.library Sim.config
           ["ns=2;i=2"; "ns=2;i=9"; "ns=2;i=2"] (Sim.start []))
    = Ok (ReadMultiple results)
    /\ map fst results = ["ns=2;i=2"; "ns=2;i=9"].
Proof.
  pose (c := mkClient 0 (server_url Sim.config) None None).
  pose (w1 := mkWorld (Some c) 1 (Sim.mkRemote [] Sim.table) [CallConnect c]
                      [LogConnected (server_url Sim.config)]).
  destruct (read_multiple_one_entry_per_distinct_id
              _ _ Sim.library Sim.config
              ["ns=2;i=2"; "ns=2;i=9"; "ns=2;i=2"] (Sim.start []) w1 c
              ["ns=2;i=2"; "ns=2;i=9"; "ns=2;i=2"] eq_refl eq_refl)
    as [results [Hrun [_ [Hkeys _]]]].
  exists results. split; [exact Hrun | exact Hkeys].
Defined.

(** Two different texts that the library prints as one id share one
    entry. *)
Example read_multiple_keys_are_printed_ids :
  fst (read_multiple_opcua_nodes sim_printing Sim.config
         ["ns=0;i=85"; "i=85"] (Sim.start []))
  = Ok (ReadMultiple
          [("i=85",
            VStr ("Error reading node i=85: "
                  ++ "The node id refers to a node that does not exist"))]).
Proof. reflexivity. Qed.

(** C1, as the claim states it, fails: a list that names one node twice
    gets a single entry for its two ids, and a list with an id that does
    not resolve gets no entry at all, the read of the good id included. *)
Lemma read_multiple_merges_and_aborts :
  fst (read_multiple_opcua_nodes Sim.library Sim.config
         ["ns=2;i=2"; "ns=2;i=2"] (Sim.start []))
  = Ok (ReadMultiple [("ns=2;i=2", VInt 42)])
  /\ List.length [("ns=2;i=2", VInt 42)]
     <> List.length ["ns=2;i=2"; "ns=2;i=2"]
  /\ fst (read_multiple_opcua_nodes Sim.library Sim.config
            ["ns=2;i=2"; "BAD"] (Sim.start []))
     = Ok (ReadMultipleError ["ns=2;i=2"; "BAD"]
             (LibError "UaStringParsingError" "Error parsing string BAD")).
Proof.
  repeat split. discriminate.
Qed.

(** ** Browsing the children of a node *)

Lemma nth_error_map_combine {A B C} (f : A * B -> C) (a : list A)
  (b : list B) (i : nat) (x : A) (y : B) :
  nth_error a i = Some x -> nth_error b i = Some y ->
  nth_error (map f (combine a b)) i = Some (f (x, y)).
Proof.
  revert b i. induction a as [| x0 a IH]; intros [| y0 b] [| i]; simpl;
    try discriminate.
  - intros Hx Hy. inversion Hx. inversion Hy. reflexivity.
  - apply IH.
Qed.

Section Browse.
Context {Node Remote : Type}.
Variable lib : Library Node Remote.

Lemma browse_outcomes_length (children : list Node) (r : Remote) :
  List.length (browse_outcomes lib children r) = List.length children.
Proof.
  revert r. induction children as [| child children IH]; intros r; simpl.
  - reflexivity.
  - destruct (get_browse_name lib child r) as [x r']. simpl. now rewrite IH.
Qed.

(** The loop never raises: every child gets its entry, in turn. *)
Lemma browse_loop_runs (children : list Node) (children_info : list Dict)
  (w : World Remote) :
  exists r',
    browse_loop lib children children_info w
    = (Ok (children_info
           ++ map (fun cx => browse_entry lib (fst cx) (snd cx))
                  (combine children
                           (browse_outcomes lib children (remote w))))%list,
       with_remote w r').
Proof.
  revert children_info w.
  induction children as [| child children IH]; intros children_info w.
  - exists (remote w). destruct w. simpl. now rewrite app_nil_r.
  - simpl. unfold browse_child, try_except, io_bind, remote_op, ret.
    destruct (get_browse_name lib child (remote w)) as [[name | e] r1]; simpl;
      match goal with
      | |- context [browse_loop lib children ?info ?w1] =>
          destruct (IH info w1) as [r' Hrun]; rewrite Hrun
      end;
      exists r'; simpl; rewrite <- app_assoc; reflexivity.
Qed.

End Browse.

(** C9.  When the session is acquired, the node resolves and its children
    enumerate, the tool returns one entry per child, in the order of the
    enumeration: the entry of a child holds its node id and its name, and
    for a child whose name retrieval raised, the node id and the
    placeholder made of "Error getting name: " and the text of that
    error. *)
Theorem browse_lists_every_child
  (Node Remote : Type) (lib : Library Node Remote) (cfg : Config)
  (node_id : string) (w w1 : World Remote) (client : Client) (node : Node)
  (children : list Node) (r2 : Remote) :
  get_opcua_client lib cfg w = (Ok (Some client), w1) ->
  get_node lib client (VStr node_id) = Ok node ->
  get_children lib node (remote w1) = (Ok children, r2) ->
  exists children_info,
    fst (browse_opcua_node_children lib cfg node_id w)
    = Ok (Children node_id children_info)
    /\ List.length children_info = List.length children
    /\ (forall i child x,
           nth_error children i = Some child ->
           nth_error (browse_outcomes lib children r2) i = Some x ->
           nth_error children_info i = Some (browse_entry lib child x))
    /\ (forall i child e,
           nth_error children i = Some child ->
           nth_error (browse_outcomes lib children r2) i = Some (Raise e) ->
           nth_error children_info i
           = Some [("node_id", VStr (nodeid_to_string lib child));
                   ("browse_name",
                    VStr ("Error getting name: " ++ str_exn e))]).
Proof.
  intros Hacq Hnode Hchildren.
  pose (info := map (fun cx => browse_entry lib (fst cx) (snd cx))
                    (combine children (browse_outcomes lib children r2))).
  assert (Hnth : forall i child x,
             nth_error children i = Some child ->
             nth_error (browse_outcomes lib children r2) i = Some x ->
             nth_error info i = Some (browse_entry lib child x)).
  { intros i child x Hc Hx. unfold info.
    now rewrite (nth_error_map_combine _ _ _ i child x Hc Hx). }
  exists info. split; [| split; [| split]].
  - unfold browse_opcua_node_children, try_except, io_bind, lift,
      remote_op, ret, client_get_node.
    rewrite Hacq, Hnode, Hchildren.
    destruct (browse_loop_runs lib children []
                (mkWorld (_opcua_client w1) (next_id w1) r2
                         (session_calls w1) (stderr w1))) as [r' Hrun].
    rewrite Hrun. reflexivity.
  - unfold info.
    rewrite length_map, length_combine, browse_outcomes_length.
    apply Nat.min_id.
  - exact Hnth.
  - intros i child e Hc Hx. now rewrite (Hnth i child (Raise e) Hc Hx).
Qed.

Lemma browse_lists_every_child_witness :
  exists children_info,
    fst (browse_opcua_node_children Sim.library Sim.config "i=85"
           (Sim.start []))
    = Ok (Children "i=85" children_info)
    /\ List.length children_info = 5%nat
    /\ nth_error children_info 4
       = Some [("node_id", VStr "ns=2;s=Stale");
               ("browse_name",
                VStr ("Error getting name: " ++ str_exn Sim.unknown_node))].
Proof.
  pose (c := mkClient 0 (server_url Sim.config) None None).
  pose (w1 := mkWorld (Some c) 1 (Sim.mkRemote [] Sim.table) [CallConnect c]
                      [LogConnected (server_url Sim.config)]).
  destruct (browse_lists_every_child
              _ _ Sim.library Sim.config "i=85" (Sim.start []) w1 c "i=85"
              ["ns=2;i=2"; "ns=2;i=3"; "ns=2;i=4"; "ns=2;i=5"; "ns=2;s=Stale"]
              (remote w1) eq_refl eq_refl eq_refl)
    as [children_info [Hrun [Hlen [_ Hfail]]]].
  exists children_info. split; [exact Hrun |]. split; [exact Hlen |].
  apply (Hfail 4%nat "ns=2;s=Stale"); reflexivity.
Defined.

(** ** The batch write *)

Section BatchWrite.
Context {Node Remote : Type}.
Variable lib : Library Node Remote.

Ltac run_item :=
  unfold write_item, try_except, io_bind, attr, lift, remote_op, ret,
    getitem.



(** The turn of an item with both keys always adds one record. *)
Lemma write_item_well_formed (client : Client) (item : Dict)
  (status_report : list Dict) (w : World Remote) :
  well_formed item = true ->
  exists record w',
    write_item lib (Some client) item status_report w
    = (Ok (status_report ++ [record])%list, w').
Proof.
  unfold well_formed.
  destruct (get item "node_id") as [node_id |] eqn:Hid; [| discriminate].
  destruct (get item "value") as [value |] eqn:Hvalue; [| discriminate].
  intros _. run_item. rewrite Hid, Hvalue.
  destruct (get_node lib client node_id) as [node | e]; [| eauto].
  destruct (detect_and_convert_value lib node (str value) w)
    as [[variant | e] w2]; [| eauto].
  simpl.
  destruct (set_data_value lib node _ (remote w2)) as [[[] | e] r3];
    [| eauto].
  simpl. destruct (get_value lib node r3) as [[new_value | e] r4]; eauto.
Qed.

(** The turn of an item without one of its keys raises the [KeyError] of
    the failure record. *)
Lemma write_item_missing_key (client : Client) (item : Dict)
  (status_report : list Dict) (w : World Remote) :
  well_formed item = false ->
  exists w',
    write_item lib (Some client) item status_report w
    = (Raise (KeyError (missing_key item)), w').
Proof.
  unfold well_formed, missing_key.
  destruct (get item "node_id") as [node_id |] eqn:Hid.
  - destruct (get item "value") as [value |] eqn:Hvalue; [discriminate |].
    intros _. run_item. rewrite Hid, Hvalue.
    destruct (get_node lib client node_id) as [node | e]; eauto.
  - intros _. run_item. rewrite Hid. eauto.
Qed.

Lemma write_loop_app (client : option Client) (a b : list Dict)
  (status_report : list Dict) (w : World Remote) :
  write_loop lib client (a ++ b) status_report w
  = match write_loop lib client a status_report w with
    | (Ok status_report', w') => write_loop lib client b status_report' w'
    | (Raise e, w') => (Raise e, w')
    end.
Proof.
  revert status_report w. induction a as [| item a IH];
    intros status_report w; simpl; [reflexivity |].
  unfold io_bind.
  destruct (write_item lib client item status_report w) as [[sr | e] w'];
    [apply IH | reflexivity].
Qed.

(** Over items that all have both keys the loop adds one record each. *)
Lemma write_loop_well_formed (client : Client) (items : list Dict)
  (status_report : list Dict) (w : World Remote) :
  forallb well_formed items = true ->
  exists status_report' w',
    write_loop lib (Some client) items status_report w
    = (Ok status_report', w')
    /\ List.length status_report'
       = (List.length status_report + List.length items)%nat.
Proof.
  revert status_report w. induction items as [| item items IH];
    intros status_report w; simpl.
  - intros _. exists status_report, w. split; [reflexivity | lia].
  - intros H. apply andb_true_iff in H. destruct H as [Hitem Hitems].
    destruct (write_item_well_formed client item status_report w Hitem)
      as [record [w1 Hrun]].
    unfold io_bind. rewrite Hrun.
    destruct (IH (status_report ++ [record])%list w1 Hitems)
      as [sr' [w' [Hloop Hlen]]].
    exists sr', w'. split; [exact Hloop |].
    rewrite Hlen, length_app. simpl. lia.
Qed.

End BatchWrite.

(** The first item without one of its keys splits the list. *)
Lemma first_malformed_item (items : list Dict) :
  existsb (fun item => negb (well_formed item)) items = true ->
  exists before item after,
    items = (before ++ item :: after)%list
    /\ forallb well_formed before = true
    /\ well_formed item = false.
Proof.
  induction items as [| item items IH]; simpl; [discriminate |].
  destruct (well_formed item) eqn:Hitem; simpl.
  - intros H. destruct (IH H) as [before [bad [after [Heq [Hb Hbad]]]]].
    exists (item :: before), bad, after. simpl.
    rewrite Heq, Hitem, Hb. auto.
  - intros _. exists [], item, items. auto.
Qed.



(** C10.  When some item of the list lacks the key node_id or the key
    value, the tool returns the single error of the outer handler and no
    status record.  With the session acquired, the error is the
    [KeyError] raised inside the per-item handler while it builds the
    failure record of the first such item: the items before it had been
    processed and had one record each, and those records are not in the
    response. *)
Theorem write_multiple_aborts_on_missing_key
  (Node Remote : Type) (lib : Library Node Remote) (cfg : Config)
  (nodes_to_write : list Dict) (w : World Remote) :
  existsb (fun item => negb (well_formed item)) nodes_to_write = true ->
  exists e,
    fst (write_multiple_opcua_nodes lib cfg nodes_to_write w)
    = Ok (WriteMultipleError e)
    /\ (forall client w1,
           get_opcua_client lib cfg w = (Ok client, w1) ->
           exists before item after status_report w2,
             nodes_to_write = (before ++ item :: after)%list
             /\ forallb well_formed before = true
             /\ well_formed item = false
             /\ write_loop lib client before [] w1 = (Ok status_report, w2)
             /\ List.length status_report = List.length before
             /\ fst (write_item lib client item status_report w2)
                = Raise (KeyError (missing_key item))
             /\ e = KeyError (missing_key item)).
Proof.
  intros Hbad.
  destruct (first_malformed_item nodes_to_write Hbad)
    as [before [item [after [Heq [Hbefore Hitem]]]]].
  unfold write_multiple_opcua_nodes, try_except, io_bind, ret.
  destruct (get_opcua_client lib cfg w) as [[g | e0] w1] eqn:Hacq.
  - destruct (get_opcua_client_some lib cfg w w1 g Hacq) as [c [-> _]].
    destruct (write_loop_well_formed lib c before [] w1 Hbefore)
      as [sr [w2 [Hloop Hlen]]].
    destruct (write_item_missing_key lib c item sr w2 Hitem) as [w3 Hraise].
    exists (KeyError (missing_key item)). split.
    + rewrite Heq, write_loop_app, Hloop. simpl. unfold io_bind.
      rewrite Hraise. reflexivity.
    + intros client w1' H. inversion H; subst.
      exists before, item, after, sr, w2.
      rewrite Hraise. repeat split; assumption.
  - exists e0. split; [reflexivity |]. intros client w1' H. discriminate.
Qed.

Lemma write_multiple_aborts_on_missing_key_witness :
  exists e item,
    fst (write_multiple_opcua_nodes Sim.library Sim.config
           [[("node_id", VStr "ns=2;i=2"); ("value", VInt 10)];
            [("node_id", VStr "ns=2;i=3")]]
           (Sim.start []))
    = Ok (WriteMultipleError e)
    /\ well_formed item = false
    /\ e = KeyError (missing_key item).
Proof.
  pose (c := mkClient 0 (server_url Sim.config) None None).
  pose (w1 := mkWorld (Some c) 1 (Sim.mkRemote [] Sim.table) [CallConnect c]
                      [LogConnected (server_url Sim.config)]).
  destruct (write_multiple_aborts_on_missing_key
              _ _ Sim.library Sim.config
              [[("node_id", VStr "ns=2;i=2"); ("value", VInt 10)];
               [("node_id", VStr "ns=2;i=3")]]
              (Sim.start []) eq_refl) as [e [Hrun Hkey]].
  destruct (Hkey (Some c) w1 eq_refl)
    as [before [item [after [sr [w2 [_ [_ [Hitem [_ [_ [_ He]]]]]]]]]]].
  exists e, item. split; [exact Hrun |]. split; [exact Hitem | exact He].
Defined.

(** ** More on the coercion engine *)

Lemma lower_char_boolean_letter (c l : ascii) :
  In l boolean_letters -> lower_char c = l -> c = l \/ c = upper_char l.
Proof.
  intros Hl Hc. subst l. revert Hl.
  destruct c as [[] [] [] [] [] [] [] []]; vm_compute;
    intros H; auto; repeat (destruct H as [H | H]; [discriminate |]);
    contradiction.
Qed.

Lemma lower_in_case_variants (w value : string) :
  (forall l, In l (list_ascii_of_string w) -> In l boolean_letters) ->
  lower value = w -> In value (case_variants w).
Proof.
  revert value. induction w as [| l w IH]; intros [| c r] Hw Hlow;
    simpl in Hlow; try discriminate.
  - now left.
  - injection Hlow as Hc Hr. simpl. apply in_flat_map.
    exists r. split.
    + apply IH; [| exact Hr].
      intros l' Hl'. apply Hw. now right.
    + destruct (lower_char_boolean_letter c l) as [Heq | Heq];
        [apply Hw; now left | exact Hc | |]; rewrite Heq; simpl; auto.
Qed.

(** No spelling of a boolean word is an integer or a float literal. *)
Lemma boolean_word_not_numeric (value : string) :
  str_in (lower value) boolean_words = true ->
  is_ok (int value) = false /\ is_ok (float value) = false.
Proof.
  intros Hword. apply str_in_In in Hword.
  assert (Hall : forallb (fun s => negb (is_ok (int s))
                                   && negb (is_ok (float s)))
                         (flat_map case_variants boolean_words) = true)
    by (vm_compute; reflexivity).
  rewrite forallb_forall in Hall.
  assert (Hin : In value (flat_map case_variants boolean_words)).
  { apply in_flat_map. exists (lower value). split; [exact Hword |].
    apply lower_in_case_variants; [| reflexivity].
    unfold boolean_words in Hword. simpl in Hword.
    intros l Hl.
    repeat (destruct Hword as [Hword | Hword];
            [rewrite <- Hword in Hl; vm_compute in Hl |- *; tauto |]).
    contradiction. }
  specialize (Hall value Hin). apply andb_true_iff in Hall.
  destruct Hall as [Hi Hf].
  split; [now apply negb_true_iff in Hi | now apply negb_true_iff in Hf].
Qed.

Lemma int_ok_not_boolean_word (value : string) (v : Z) :
  int value = Ok v -> str_in (lower value) boolean_words = false.
Proof.
  intros Hint. destruct (str_in (lower value) boolean_words) eqn:Hw;
    [| reflexivity].
  destruct (boolean_word_not_numeric value Hw) as [Hi _].
  rewrite Hint in Hi. discriminate.
Qed.

(** X1.  Every text that [int] accepts is auto-detected as that integer,
    with the width its range gives: no such text is one of the boolean
    words, so the boolean test that comes first never takes it. *)
Theorem integer_text_is_auto_detected_as_integer (value : string) (v : Z) :
  int value = Ok v -> auto_detect_variant value = Ok (int_variant v).
Proof.
  intros Hint. unfold auto_detect_variant.
  pose proof (int_ok_not_boolean_word value v Hint) as Hw.
  unfold boolean_words in Hw. rewrite Hw, Hint. reflexivity.
Qed.

Lemma integer_text_is_auto_detected_as_integer_witness :
  auto_detect_variant " +1_000 "
  = Ok (mkVariant (PInt 1000) VariantType.Int16).
Proof.
  apply (integer_text_is_auto_detected_as_integer " +1_000 " 1000).
  reflexivity.
Defined.

(** X2.  Every text that [int] refuses and [float] accepts is
    auto-detected as a single-precision Float holding what [float]
    returns; this includes the spellings of inf, infinity and nan. *)
Theorem float_text_is_auto_detected_as_float (value : string) (f : Float) :
  is_ok (int value) = false ->
  float value = Ok f ->
  auto_detect_variant value = Ok (mkVariant (PFloat f) VariantType.Float).
Proof.
  intros Hint Hfloat. unfold auto_detect_variant.
  destruct (str_in (lower value) _) eqn:Hw.
  - destruct (boolean_word_not_numeric value Hw) as [_ Hf].
    rewrite Hfloat in Hf. discriminate.
  - destruct (int value) as [i | e] eqn:Hi; [discriminate |]. simpl.
    rewrite (int_raises_ValueError _ _ Hi), Hfloat. reflexivity.
Qed.

Lemma float_text_is_auto_detected_as_float_witness :
  auto_detect_variant "-Infinity"
  = Ok (mkVariant (PFloat (FloatOf "-Infinity")) VariantType.Float).
Proof.
  apply float_text_is_auto_detected_as_float; reflexivity.
Defined.

(** X3.  Whatever auto-detection returns is a Boolean, an Int16, Int32 or
    Int64 integer, a Float or a String, never an unsigned or one-byte
    integer nor a Double; it is a Boolean exactly for the spellings of
    the six boolean words, and a String always holds the text
    unchanged. *)
Theorem auto_detect_variant_shapes (value : string) (variant : Variant) :
  auto_detect_variant value = Ok variant ->
  auto_shape variant = true
  /\ (VType variant = VariantType.Boolean <-> In (lower value) boolean_words)
  /\ (VType variant = VariantType.String -> Value variant = PStr value).
Proof.
  unfold auto_detect_variant. rewrite <- str_in_In. unfold boolean_words.
  destruct (str_in (lower value) _) eqn:Hw.
  - intros H. inversion H. simpl. repeat split; auto; discriminate.
  - destruct (int value) as [i | e] eqn:Hi; simpl.
    + unfold int_variant.
      destruct (_ && _); [| destruct (_ && _)]; intros H; inversion H;
        simpl; repeat split; auto; discriminate.
    + rewrite (int_raises_ValueError _ _ Hi).
      destruct (float value) as [f | e'] eqn:Hf; simpl.
      * intros H. inversion H. simpl. repeat split; auto; discriminate.
      * rewrite (float_raises_ValueError _ _ Hf). intros H. inversion H.
        simpl. repeat split; auto; discriminate.
Qed.

Lemma auto_detect_variant_shapes_witness :
  auto_shape (mkVariant (PStr "12 volts") VariantType.String) = true
  /\ Value (mkVariant (PStr "12 volts") VariantType.String) = PStr "12 volts".
Proof.
  destruct (auto_detect_variant_shapes "12 volts"
              (mkVariant (PStr "12 volts") VariantType.String) eq_refl)
    as [Hshape [_ Htext]].
  split; [exact Hshape | apply Htext; reflexivity].
Defined.

(** X4.  An auto-detected integer comes from [int] on the text, and its
    width tells its range: an Int16 lies in [-32768, 32767], an Int32 in
    [-2147483648, 2147483647] and outside the Int16 range, and an Int64
    outside the Int32 range. *)
Theorem auto_detected_width_is_sound (value : string) (v : Z)
  (vt : VariantType.t) :
  auto_detect_variant value = Ok (mkVariant (PInt v) vt) ->
  int value = Ok v
  /\ ((vt = VariantType.Int16 /\ -32768 <= v <= 32767)
      \/ (vt = VariantType.Int32 /\ -2147483648 <= v <= 2147483647
          /\ (v < -32768 \/ 32767 < v))
      \/ (vt = VariantType.Int64 /\ (v < -2147483648 \/ 2147483647 < v))).
Proof.
  unfold auto_detect_variant.
  destruct (str_in (lower value) _); [discriminate |].
  destruct (int value) as [i | e] eqn:Hi; simpl.
  - unfold int_variant.
    destruct ((-32768 <=? i) && (i <=? 32767)) eqn:H16;
      [| destruct ((-2147483648 <=? i) && (i <=? 2147483647)) eqn:H32];
      intros H; inversion H; subst; (split; [reflexivity |]);
      repeat match goal with
             | H : (_ && _) = true |- _ =>
                 apply andb_true_iff in H; destruct H
             | H : (_ && _) = false |- _ =>
                 apply andb_false_iff in H; destruct H
             | H : (_ <=? _) = true |- _ => apply Z.leb_le in H
             | H : (_ <=? _) = false |- _ => apply Z.leb_gt in H
             end;
      solve [left; split; [reflexivity | lia]
            | right; left; split; [reflexivity | lia]
            | right; right; split; [reflexivity | lia]].
  - rewrite (int_raises_ValueError _ _ Hi).
    destruct (float value) as [f | e'] eqn:Hf; simpl; [discriminate |].
    rewrite (float_raises_ValueError _ _ Hf). discriminate.
Qed.

Lemma auto_detected_width_is_sound_witness :
  int "-32769" = Ok (-32769)
  /\ ((VariantType.Int32 = VariantType.Int16 /\ -32768 <= -32769 <= 32767)
      \/ (VariantType.Int32 = VariantType.Int32
          /\ -2147483648 <= -32769 <= 2147483647
          /\ (-32769 < -32768 \/ 32767 < -32769))
      \/ (VariantType.Int32 = VariantType.Int64
          /\ (-32769 < -2147483648 \/ 2147483647 < -32769))).
Proof.
  apply (auto_detected_width_is_sound "-32769" (-32769) VariantType.Int32).
  reflexivity.
Defined.

Ltac run_hinted :=
  unfold detect_and_convert_value, declared_type, try_except, io_bind,
    remote_op, attr, lift, ret, raise, print; simpl.

(** The coercion leaves the session part of the world alone. *)
Lemma detect_keeps_session {Node Remote : Type} (lib : Library Node Remote)
  (node : Node) (value : string) (w : World Remote) :
  session_of (snd (detect_and_convert_value lib node value w)) = session_of w.
Proof.
  run_hinted. unfold session_of.
  destruct (get_data_value lib node (remote w)) as [[[[[p vt] |]] | e] r];
    simpl;
    [destruct vt; simpl; destruct (int value); destruct (float value) | |];
    try reflexivity; destruct (auto_detect_variant value); reflexivity.
Qed.

(** X5.  Under a declared integer type the coercion tags whatever integer
    [int] reads from the text with that type, without comparing it to the
    range of the type: a negative number under an unsigned type and a
    number too wide for the type go through as they are. *)
Theorem declared_integer_type_is_not_range_checked
  (Node Remote : Type) (lib : Library Node Remote) (node : Node)
  (value : string) (w : World Remote) (vt : VariantType.t) (v : Z) :
  declared_type lib node (remote w) = Some vt ->
  is_integer_type vt = true ->
  int value = Ok v ->
  fst (detect_and_convert_value lib node value w) = Ok (mkVariant (PInt v) vt).
Proof.
  run_hinted.
  destruct (get_data_value lib node (remote w)) as [[[[[p vt'] |]] | e] r];
    simpl; intros H; inversion H; subst vt'.
  intros Hvt Hint. rewrite Hint.
  destruct vt; simpl in Hvt; try discriminate; reflexivity.
Qed.

Lemma declared_integer_type_is_not_range_checked_witness :
  fst (detect_and_convert_value Sim.library "ns=2;i=2" "70000" (Sim.start []))
  = Ok (mkVariant (PInt 70000) VariantType.Int16).
Proof.
  apply declared_integer_type_is_not_range_checked; reflexivity.
Defined.

(** X6.  Under a declared String type the coercion keeps every text as it
    is, also a text that auto-detection would turn into a number or a
    boolean. *)
Theorem declared_string_type_keeps_text
  (Node Remote : Type) (lib : Library Node Remote) (node : Node)
  (value : string) (w : World Remote) :
  declared_type lib node (remote w) = Some VariantType.String ->
  fst (detect_and_convert_value lib node value w)
  = Ok (mkVariant (PStr value) VariantType.String).
Proof.
  run_hinted.
  destruct (get_data_value lib node (remote w)) as [[[[[p vt'] |]] | e] r];
    simpl; intros H; inversion H; subst vt'. reflexivity.
Qed.

Lemma declared_string_type_keeps_text_witness :
  fst (detect_and_convert_value Sim.library "ns=2;i=3" " 42 " (Sim.start []))
  = Ok (mkVariant (PStr " 42 ") VariantType.String).
Proof.
  apply declared_string_type_keeps_text. reflexivity.
Defined.

(** X7.  Under a declared Float or Double type every text that [float]
    accepts, the text of an integer included, becomes a floating-point
    variant of exactly the declared type. *)
Theorem declared_float_type_takes_any_float
  (Node Remote : Type) (lib : Library Node Remote) (node : Node)
  (value : string) (w : World Remote) (vt : VariantType.t) (f : Float) :
  declared_type lib node (remote w) = Some vt ->
  vt = VariantType.Float \/ vt = VariantType.Double ->
  float value = Ok f ->
  fst (detect_and_convert_value lib node value w)
  = Ok (mkVariant (PFloat f) vt).
Proof.
  run_hinted.
  destruct (get_data_value lib node (remote w)) as [[[[[p vt'] |]] | e] r];
    simpl; intros H; inversion H; subst vt'.
  intros [-> | ->] Hfloat; rewrite Hfloat; reflexivity.
Qed.

Lemma declared_float_type_takes_any_float_witness :
  fst (detect_and_convert_value Sim.library "ns=2;i=6" "5"
         (mkWorld None 0
            (Sim.mkRemote []
               [("ns=2;i=6",
                 mkVariant (PFloat (FloatOf "0.0")) VariantType.Double)])
            [] []))
  = Ok (mkVariant (PFloat (FloatOf "5")) VariantType.Double).
Proof.
  apply declared_float_type_takes_any_float;
    [reflexivity | right; reflexivity | reflexivity].
Defined.

(** X8.  The coercion only looks: on the remote side it does the one
    retrieval of the node's data value and nothing else, it leaves the
    global, the object identities and the session calls as they are, and
    it adds one or two lines to the error stream. *)
Theorem detect_and_convert_value_only_reads
  (Node Remote : Type) (lib : Library Node Remote) (node : Node)
  (value : string) (w : World Remote) :
  session_of (snd (detect_and_convert_value lib node value w)) = session_of w
  /\ remote (snd (detect_and_convert_value lib node value w))
     = snd (get_data_value lib node (remote w))
  /\ exists lines,
       stderr (snd (detect_and_convert_value lib node value w))
       = (stderr w ++ lines)%list
       /\ (1 <= List.length lines <= 2)%nat.
Proof.
  destruct (auto_detect_variant_returns value) as [auto Hauto].
  run_hinted. unfold session_of.
  destruct (get_data_value lib node (remote w)) as [[[[[p vt] |]] | e] r];
    simpl.
  - destruct vt; simpl;
      destruct (int value); destruct (float value); rewrite ?Hauto; simpl;
      (split; [reflexivity |]); (split; [reflexivity |]);
      rewrite <- ?app_assoc; eexists; (split; [reflexivity |]); simpl; lia.
  - repeat split. eexists; (split; [reflexivity |]); simpl; lia.
  - repeat split. eexists; (split; [reflexivity |]); simpl; lia.
Qed.

(** ** More on the session *)

Ltac run_session :=
  unfold cleanup_client, client_disconnect, get_opcua_client, client_connect,
    set_user, set_password, new_Client, try_finally, try_except,
    write_global, read_global, record_call, remote_op, print, attr, io_bind,
    ret, raise; simpl.

(** With nothing in the global, releasing does nothing. *)
Lemma cleanup_client_absent {Node Remote : Type} (lib : Library Node Remote)
  (w : World Remote) :
  _opcua_client w = None -> cleanup_client lib w = (Ok tt, w).
Proof.
  intros Hg. run_session. rewrite Hg. reflexivity.
Qed.

(** With a client in the global, releasing calls its disconnect once,
    prints what came of it and clears the global. *)
Lemma cleanup_client_present {Node Remote : Type} (lib : Library Node Remote)
  (w : World Remote) (c : Client) :
  _opcua_client w = Some c ->
  cleanup_client lib w
  = (Ok tt,
     mkWorld None (next_id w) (snd (disconnect lib c (remote w)))
             (session_calls w ++ [CallDisconnect c])
             (stderr w ++ [match fst (disconnect lib c (remote w)) with
                           | Ok _ => LogDisconnected
                           | Raise e => LogDisconnectError e
                           end])).
Proof.
  intros Hg. run_session. repeat (rewrite Hg; simpl).
  destruct (disconnect lib c (remote w)) as [[[] | e] r]; reflexivity.
Qed.

(** X9.  Releasing never raises and always leaves the global cleared.
    With a client in the global it calls that client's disconnect exactly
    once and prints either that it disconnected or, when the disconnect
    raised, the error, which goes no further; with no client it leaves
    the world untouched. *)
Theorem cleanup_client_always_clears
  (Node Remote : Type) (lib : Library Node Remote) (w : World Remote) :
  fst (cleanup_client lib w) = Ok tt
  /\ _opcua_client (snd (cleanup_client lib w)) = None
  /\ next_id (snd (cleanup_client lib w)) = next_id w
  /\ (forall c,
         _opcua_client w = Some c ->
         session_calls (snd (cleanup_client lib w))
         = (session_calls w ++ [CallDisconnect c])%list
         /\ remote (snd (cleanup_client lib w))
            = snd (disconnect lib c (remote w))
         /\ stderr (snd (cleanup_client lib w))
            = (stderr w ++ [match fst (disconnect lib c (remote w)) with
                            | Ok _ => LogDisconnected
                            | Raise e => LogDisconnectError e
                            end])%list)
  /\ (_opcua_client w = None -> snd (cleanup_client lib w) = w).
Proof.
  destruct (_opcua_client w) as [c |] eqn:Hg.
  - rewrite (cleanup_client_present lib w c Hg). simpl.
    split; [reflexivity |]. split; [reflexivity |]. split; [reflexivity |].
    split; [| discriminate].
    intros c' Hc. inversion Hc. subst c'. repeat split.
  - rewrite (cleanup_client_absent lib w Hg). simpl.
    split; [reflexivity |]. split; [exact Hg |]. split; [reflexivity |].
    split; [discriminate | reflexivity].
Qed.

Lemma cleanup_client_always_clears_witness :
  session_calls (snd (cleanup_client Sim.library sim_connected))
  = [CallConnect sim_client; CallDisconnect sim_client]
  /\ stderr (snd (cleanup_client Sim.library sim_connected))
     = [LogConnected (server_url Sim.config); LogDisconnected].
Proof.
  destruct (cleanup_client_always_clears _ _ Sim.library sim_connected)
    as [_ [_ [_ [Hpresent _]]]].
  destruct (Hpresent sim_client eq_refl) as [Hcalls [_ Hlog]].
  split; [exact Hcalls | exact Hlog].
Defined.

(** X10.  Releasing twice is releasing once: the second release finds the
    global cleared, calls no disconnect, prints nothing and changes
    nothing. *)
Theorem cleanup_client_is_idempotent
  (Node Remote : Type) (lib : Library Node Remote) (w : World Remote) :
  cleanup_client lib (snd (cleanup_client lib w))
  = (Ok tt, snd (cleanup_client lib w)).
Proof.
  apply cleanup_client_absent.
  destruct (_opcua_client w) as [c |] eqn:Hg.
  - now rewrite (cleanup_client_present lib w c Hg).
  - now rewrite (cleanup_client_absent lib w Hg).
Qed.

(** X11.  After a release the program can connect again: an acquisition
    that returns after a release has built a new client object from the
    configuration and has asked the transport to connect it, one connect
    call more than before the release, whatever the global held. *)
Theorem acquire_after_release_reconnects
  (Node Remote : Type) (lib : Library Node Remote) (cfg : Config)
  (w w2 : World Remote) (g : option Client) :
  get_opcua_client lib cfg (snd (cleanup_client lib w)) = (Ok g, w2) ->
  g = Some (configured_client lib cfg (next_id w))
  /\ _opcua_client w2 = g
  /\ connect_count w2 = S (connect_count w)
  /\ fst (connect lib (configured_client lib cfg (next_id w))
                  (remote (snd (cleanup_client lib w)))) = Ok tt.
Proof.
  assert (Hreleased :
            _opcua_client (snd (cleanup_client lib w)) = None
            /\ next_id (snd (cleanup_client lib w)) = next_id w
            /\ connect_count (snd (cleanup_client lib w)) = connect_count w).
  { destruct (_opcua_client w) as [c |] eqn:Hw.
    - rewrite (cleanup_client_present lib w c Hw). simpl.
      repeat split. unfold connect_count. simpl.
      rewrite filter_app. simpl. now rewrite app_nil_r.
    - rewrite (cleanup_client_absent lib w Hw). simpl. auto. }
  destruct Hreleased as [Hg [Hid Hcount]].
  rewrite (get_opcua_client_absent lib cfg _ Hg), Hid.
  destruct (client_init lib (server_url cfg)) as [from_url | e0];
    [| discriminate].
  destruct (connect lib _ (remote (snd (cleanup_client lib w))))
    as [[[] | e] r]; intros H; inversion H.
  repeat split. rewrite connect_count_app. now rewrite Hcount.
Qed.

Lemma acquire_after_release_reconnects_witness :
  exists w2,
    get_opcua_client Sim.library Sim.config
      (snd (cleanup_client Sim.library sim_connected))
    = (Ok (Some (mkClient 1 (server_url Sim.config) None None)), w2)
    /\ connect_count w2 = 2%nat.
Proof.
  destruct (get_opcua_client Sim.library Sim.config
              (snd (cleanup_client Sim.library sim_connected)))
    as [[g | e] w2] eqn:Hrun; [| discriminate].
  destruct (acquire_after_release_reconnects
              _ _ Sim.library Sim.config sim_connected w2 g Hrun)
    as [Hg [_ [Hcount _]]].
  exists w2. rewrite Hg. split; [reflexivity | exact Hcount].
Defined.

(** X12.  When the constructor returns, a first acquisition connects a
    client with the configured url, and sets the configured user name and
    password on it only when both are set and not empty; with one of them
    missing or empty it sets neither, and the client connects with the
    credentials the constructor took from the url, if any. *)
Theorem credentials_are_set_together_or_left_to_the_url
  (Node Remote : Type) (lib : Library Node Remote) (cfg : Config)
  (w : World Remote) (url_user url_password : option string) :
  _opcua_client w = None ->
  client_init lib (server_url cfg) = Ok (url_user, url_password) ->
  exists c,
    session_calls (snd (get_opcua_client lib cfg w))
    = (session_calls w ++ [CallConnect c])%list
    /\ client_url c = server_url cfg
    /\ (truthy (username cfg) && truthy (password cfg) = true ->
        client_user c = username cfg /\ client_password c = password cfg)
    /\ (truthy (username cfg) && truthy (password cfg) = false ->
        client_user c = url_user /\ client_password c = url_password).
Proof.
  intros Hg Hinit. rewrite (get_opcua_client_absent lib cfg w Hg).
  exists (configured_client lib cfg (next_id w)). rewrite Hinit. split.
  - destruct (connect lib _ (remote w)) as [[[] | e] r]; reflexivity.
  - unfold configured_client. rewrite Hinit.
    destruct (truthy (username cfg) && truthy (password cfg)); simpl;
      repeat split; discriminate.
Qed.

Lemma credentials_are_set_together_or_left_to_the_url_witness :
  exists c,
    session_calls
      (snd (get_opcua_client Sim.library sim_config_url_login (Sim.start [])))
    = [CallConnect c]
    /\ client_user c = Some "admin" /\ client_password c = Some "pw".
Proof.
  destruct (credentials_are_set_together_or_left_to_the_url
              _ _ Sim.library sim_config_url_login (Sim.start [])
              (Some "admin") (Some "pw") eq_refl eq_refl)
    as [c [Hcalls [_ [_ Hurl]]]].
  exists c. split; [exact Hcalls | exact (Hurl eq_refl)].
Defined.

(** X13.  An acquisition raises only when the global was empty and
    either the constructor raised, and then nothing at all has changed,
    the global is still empty and no connect was called; or the client
    was built and its connect raised, and then the exception is the one
    of the connect, the connect was called once and the client stays in
    the global.  Nothing is printed in either case. *)
Theorem acquire_raises_from_the_constructor_or_the_connect
  (Node Remote : Type) (lib : Library Node Remote) (cfg : Config)
  (w w1 : World Remote) (e : Exn) :
  get_opcua_client lib cfg w = (Raise e, w1) ->
  _opcua_client w = None
  /\ ((client_init lib (server_url cfg) = Raise e /\ w1 = w)
      \/ (is_ok (client_init lib (server_url cfg)) = true
          /\ fst (connect lib (configured_client lib cfg (next_id w))
                          (remote w)) = Raise e
          /\ _opcua_client w1 = Some (configured_client lib cfg (next_id w))
          /\ connect_count w1 = S (connect_count w)))
  /\ stderr w1 = stderr w.
Proof.
  destruct (_opcua_client w) as [c |] eqn:Hg.
  - rewrite (get_opcua_client_present lib cfg w c Hg). discriminate.
  - rewrite (get_opcua_client_absent lib cfg w Hg).
    destruct (client_init lib (server_url cfg)) as [from_url | e0].
    + destruct (connect lib _ (remote w)) as [[[] | e'] r]; intros H;
        inversion H.
      split; [reflexivity |]. split; [| reflexivity].
      right. repeat split. apply connect_count_app.
    + intros H. inversion H. subst. auto.
Qed.

Lemma acquire_raises_from_the_constructor_or_the_connect_witness :
  (Sim.sim_client_init (server_url sim_config_bad_url)
   = Raise (ValueError "Invalid IPv6 URL")
   /\ snd (get_opcua_client Sim.library sim_config_bad_url (Sim.start []))
      = Sim.start [])
  /\ stderr (snd (get_opcua_client Sim.library Sim.config (Sim.start [false])))
     = [].
Proof.
  split.
  - destruct (acquire_raises_from_the_constructor_or_the_connect
                _ _ Sim.library sim_config_bad_url (Sim.start [])
                (snd (get_opcua_client Sim.library sim_config_bad_url
                        (Sim.start [])))
                (ValueError "Invalid IPv6 URL") eq_refl)
      as [_ [[Hinit | [Hok _]] _]].
    + exact Hinit.
    + discriminate Hok.
  - destruct (acquire_raises_from_the_constructor_or_the_connect
                _ _ Sim.library Sim.config (Sim.start [false])
                (snd (get_opcua_client Sim.library Sim.config
                        (Sim.start [false])))
                (LibError "ConnectionRefusedError"
                          "[Errno 111] Connection refused") eq_refl)
      as [_ [_ Hlog]].
    exact Hlog.
Defined.

(** ** More on the tools *)

Ltac run_tool :=
  unfold read_opcua_node, write_opcua_node, test_opcua_connection,
    browse_opcua_node_children, read_multiple_opcua_nodes,
    write_multiple_opcua_nodes, try_except, io_bind, attr, lift, remote_op,
    ret, raise, client_get_node.

Section ToolFrames.
Context {Node Remote : Type}.
Variable lib : Library Node Remote.

(** One turn of the batch write leaves the session part of the world
    alone. *)
Lemma write_item_keeps_session (client : option Client) (item : Dict)
  (status_report : list Dict) (w : World Remote) :
  session_of (snd (write_item lib client item status_report w))
  = session_of w.
Proof.
  unfold write_item, try_except, io_bind, attr, lift, remote_op, ret, raise,
    getitem.
  destruct client as [c |]; simpl;
    [| destruct (get item "node_id"); destruct (get item "value");
       reflexivity].
  destruct (get item "node_id") as [node_id |]; simpl; [| reflexivity].
  destruct (get_node lib c node_id) as [node | e]; simpl;
    [| destruct (get item "value"); reflexivity].
  destruct (get item "value") as [value |]; simpl; [| reflexivity].
  pose proof (detect_keeps_session lib node (str value) w) as Hd.
  destruct (detect_and_convert_value lib node (str value) w)
    as [[variant | e] w2]; simpl in *; [| exact Hd].
  destruct (set_data_value lib node _ (remote w2)) as [[[] | e] r3]; simpl;
    [| exact Hd].
  destruct (get_value lib node r3) as [[new_value | e] r4]; exact Hd.
Qed.

Lemma write_loop_keeps_session (client : option Client) (items : list Dict)
  (status_report : list Dict) (w : World Remote) :
  session_of (snd (write_loop lib client items status_report w))
  = session_of w.
Proof.
  revert status_report w. induction items as [| item items IH];
    intros status_report w; simpl; [reflexivity |].
  unfold io_bind.
  pose proof (write_item_keeps_session client item status_report w) as Hi.
  destruct (write_item lib client item status_report w) as [[sr | e] w1];
    simpl in Hi; [| exact Hi].
  now rewrite IH.
Qed.

(** One turn of the batch write on an item without one of its keys
    raises the [KeyError] of the failure record, with or without a
    client. *)
Lemma write_item_malformed (client : option Client) (item : Dict)
  (status_report : list Dict) (w : World Remote) :
  well_formed item = false ->
  exists w',
    write_item lib client item status_report w
    = (Raise (KeyError (missing_key item)), w').
Proof.
  unfold well_formed, missing_key, write_item, try_except, io_bind, attr,
    lift, remote_op, ret, raise, getitem.
  destruct client as [c |];
    destruct (get item "node_id") as [node_id |] eqn:Hid; simpl;
    try (destruct (get item "value") as [value |] eqn:Hvalue;
         [discriminate |]);
    intros _; try rewrite Hid; simpl; eauto.
  destruct (get_node lib c node_id) as [node | e]; simpl; rewrite ?Hid;
    simpl; eauto.
Qed.

(** One turn of the batch write on an item with both keys adds the record
    that answers the item. *)
Lemma write_item_record (client : option Client) (item : Dict)
  (status_report : list Dict) (w : World Remote) :
  well_formed item = true ->
  exists record w',
    write_item lib client item status_report w
    = (Ok (status_report ++ [record])%list, w')
    /\ record_for item record.
Proof.
  unfold well_formed.
  destruct (get item "node_id") as [node_id |] eqn:Hid; [| discriminate].
  destruct (get item "value") as [value |] eqn:Hvalue; [| discriminate].
  intros _.
  assert (Hfail : forall e,
             record_for item [("node_id", node_id); ("value_written", value);
                              ("status", VStr ("Error: " ++ str_exn e))]).
  { intros e. unfold record_for. rewrite Hid, Hvalue. simpl.
    repeat split. right. exists e. split; reflexivity. }
  unfold write_item, try_except, io_bind, attr, lift, remote_op, ret, raise,
    getitem.
  rewrite Hid, Hvalue.
  assert (Hhandled : forall e (w' : World Remote),
             exists record w'',
               (Ok (status_report
                    ++ [[("node_id", node_id); ("value_written", value);
                         ("status", VStr ("Error: " ++ str_exn e))]])%list,
                w')
               = (Ok (status_report ++ [record])%list, w'')
               /\ record_for item record).
  { intros e w'. eexists. eexists. split; [reflexivity | apply Hfail]. }
  destruct client as [c |];
    [| apply (Hhandled (no_attribute "get_node"))].
  simpl.
  destruct (get_node lib c node_id) as [node | e]; simpl; [| apply Hhandled].
  destruct (detect_and_convert_value lib node (str value) w)
    as [[variant | e] w2]; simpl; [| apply Hhandled].
  destruct (set_data_value lib node _ (remote w2)) as [[[] | e] r3]; simpl;
    [| apply Hhandled].
  destruct (get_value lib node r3) as [[new_value | e] r4]; simpl;
    [| apply Hhandled].
  eexists. eexists. split; [reflexivity |].
  unfold record_for. rewrite Hid, Hvalue. simpl.
  repeat split. left. split; [reflexivity | eauto].
Qed.

Lemma write_loop_records (client : option Client) (items : list Dict)
  (status_report : list Dict) (w : World Remote) :
  forallb well_formed items = true ->
  exists records w',
    write_loop lib client items status_report w
    = (Ok (status_report ++ records)%list, w')
    /\ Forall2 record_for items records.
Proof.
  revert status_report w. induction items as [| item items IH];
    intros status_report w; simpl.
  - intros _. exists [], w. rewrite app_nil_r. split; [reflexivity | constructor].
  - intros H. apply andb_true_iff in H. destruct H as [Hitem Hitems].
    destruct (write_item_record client item status_report w Hitem)
      as [record [w1 [Hrun Hrecord]]].
    unfold io_bind. rewrite Hrun.
    destruct (IH (status_report ++ [record])%list w1 Hitems)
      as [records [w' [Hloop Hall]]].
    exists (record :: records), w'. rewrite Hloop, <- app_assoc.
    split; [reflexivity | now constructor].
Qed.

End ToolFrames.

(** X14.  No tool touches the session except through the acquisition it
    starts with: after any of the six tools the global, the object
    identities and the connect and disconnect calls are exactly what
    [get_opcua_client] left, so a tool never disconnects, never swaps the
    client and never connects a second time. *)
Theorem tools_leave_the_session_to_acquire
  (Node Remote : Type) (lib : Library Node Remote) (folders : Folders Node)
  (cfg : Config) (w : World Remote) (node_id value : string)
  (node_ids : list string) (nodes_to_write : list Dict) :
  let acquired := session_of (snd (get_opcua_client lib cfg w)) in
  session_of (snd (read_opcua_node lib cfg node_id w)) = acquired
  /\ session_of (snd (write_opcua_node lib cfg node_id value w)) = acquired
  /\ session_of (snd (browse_opcua_node_children lib cfg node_id w))
     = acquired
  /\ session_of (snd (read_multiple_opcua_nodes lib cfg node_ids w))
     = acquired
  /\ session_of (snd (write_multiple_opcua_nodes lib cfg nodes_to_write w))
     = acquired
  /\ session_of (snd (test_opcua_connection lib folders cfg w)) = acquired.
Proof.
  intros acquired. unfold acquired. clear acquired.
  run_tool.
  destruct (get_opcua_client lib cfg w) as [[[c |] | e] w1]; simpl;
    try (repeat split; reflexivity).
  - split; [| split; [| split; [| split; [| split]]]].
    + destruct (get_node lib c (VStr node_id)) as [node | e]; simpl;
        [| reflexivity].
      destruct (get_value lib node (remote w1)) as [[v | e] r]; reflexivity.
    + destruct (get_node lib c (VStr node_id)) as [node | e]; simpl;
        [| reflexivity].
      pose proof (detect_keeps_session lib node value w1) as Hd.
      destruct (detect_and_convert_value lib node value w1)
        as [[variant | e] w2]; simpl in *; [| exact Hd].
      destruct (set_data_value lib node _ (remote w2)) as [[[] | e] r3];
        simpl; [| exact Hd].
      destruct (get_value lib node r3) as [[new_value | e] r4]; exact Hd.
    + destruct (get_node lib c (VStr node_id)) as [node | e]; simpl;
        [| reflexivity].
      destruct (get_children lib node (remote w1)) as [[children | e] r2];
        simpl; [| reflexivity].
      match goal with
      | |- context [browse_loop lib children [] ?w2] =>
          destruct (browse_loop_runs lib children [] w2) as [r' Hrun];
          rewrite Hrun
      end.
      reflexivity.
    + destruct (get_nodes lib (Some c) node_ids) as [nodes | e]; simpl;
        [| reflexivity].
      destruct (read_loop_runs lib nodes [] w1) as [r' Hrun].
      rewrite Hrun. reflexivity.
    + pose proof (write_loop_keeps_session lib (Some c) nodes_to_write [] w1)
        as Hl.
      destruct (write_loop lib (Some c) nodes_to_write [] w1)
        as [[sr | e] w2]; exact Hl.
    + destruct (get_root_node folders c) as [root | e]; simpl;
        [| reflexivity].
      destruct (get_objects_node folders c) as [objects | e]; simpl;
        [| reflexivity].
      destruct (get_children lib objects (remote w1)) as [[children | e] r2];
        reflexivity.
  - repeat split; try reflexivity.
    + destruct (get_nodes lib None node_ids) as [nodes | e]; simpl;
        [| reflexivity].
      destruct (read_loop_runs lib nodes [] w1) as [r' Hrun].
      rewrite Hrun. reflexivity.
    + pose proof (write_loop_keeps_session lib None nodes_to_write [] w1)
        as Hl.
      destruct (write_loop lib None nodes_to_write [] w1)
        as [[sr | e] w2]; exact Hl.
Qed.

(** X15.  No tool lets an exception out: for every library behaviour,
    every request and every world, each of the six tools returns a
    response. *)
Theorem tools_never_raise
  (Node Remote : Type) (lib : Library Node Remote) (folders : Folders Node)
  (cfg : Config) (w : World Remote) (node_id value : string)
  (node_ids : list string) (nodes_to_write : list Dict) :
  (exists text, fst (read_opcua_node lib cfg node_id w) = Ok text)
  /\ (exists text, fst (write_opcua_node lib cfg node_id value w) = Ok text)
  /\ (exists response,
         fst (browse_opcua_node_children lib cfg node_id w) = Ok response)
  /\ (exists response,
         fst (read_multiple_opcua_nodes lib cfg node_ids w) = Ok response)
  /\ (exists response,
         fst (write_multiple_opcua_nodes lib cfg nodes_to_write w)
         = Ok response)
  /\ (exists text, fst (test_opcua_connection lib folders cfg w) = Ok text).
Proof.
  unfold read_opcua_node, write_opcua_node, test_opcua_connection,
    browse_opcua_node_children, read_multiple_opcua_nodes,
    write_multiple_opcua_nodes, try_except.
  repeat split;
    match goal with
    | |- exists r, fst (match ?body with _ => _ end) = Ok r =>
        destruct body as [[r | e] w']; simpl; eauto
    end.
Qed.

(** X16.  When the acquisition raises, every tool answers with its own
    error response carrying that exception, and does nothing more: the
    world is the one the failed acquisition left, no node was resolved,
    read or written. *)
Theorem tools_report_a_failed_acquisition
  (Node Remote : Type) (lib : Library Node Remote) (folders : Folders Node)
  (cfg : Config) (w w1 : World Remote) (e : Exn) (node_id value : string)
  (node_ids : list string) (nodes_to_write : list Dict) :
  get_opcua_client lib cfg w = (Raise e, w1) ->
  read_opcua_node lib cfg node_id w
  = (Ok ("Error reading node " ++ node_id ++ ": " ++ type_name e ++ ": "
         ++ str_exn e), w1)
  /\ write_opcua_node lib cfg node_id value w
     = (Ok ("Error writing to node " ++ node_id ++ ": " ++ type_name e
            ++ ": " ++ str_exn e), w1)
  /\ browse_opcua_node_children lib cfg node_id w
     = (Ok (BrowseError node_id e), w1)
  /\ read_multiple_opcua_nodes lib cfg node_ids w
     = (Ok (ReadMultipleError node_ids e), w1)
  /\ write_multiple_opcua_nodes lib cfg nodes_to_write w
     = (Ok (WriteMultipleError e), w1)
  /\ test_opcua_connection lib folders cfg w
     = (Ok ("Connection test failed: " ++ type_name e ++ ": " ++ str_exn e),
        w1).
Proof.
  intros Hacq. run_tool. rewrite Hacq. repeat split.
Qed.

Lemma tools_report_a_failed_acquisition_witness :
  fst (read_opcua_node Sim.library Sim.config "ns=2;i=2" (Sim.start [false]))
  = Ok ("Error reading node ns=2;i=2: ConnectionRefusedError: "
        ++ "[Errno 111] Connection refused")
  /\ fst (write_multiple_opcua_nodes Sim.library Sim.config []
            (Sim.start [false]))
     = Ok (WriteMultipleError
             (LibError "ConnectionRefusedError"
                       "[Errno 111] Connection refused")).
Proof.
  destruct (tools_report_a_failed_acquisition
              _ _ Sim.library sim_folders Sim.config (Sim.start [false])
              (snd (get_opcua_client Sim.library Sim.config
                      (Sim.start [false])))
              (LibError "ConnectionRefusedError"
                        "[Errno 111] Connection refused")
              "ns=2;i=2" "" [] [] eq_refl)
    as [Hread [_ [_ [_ [Hwrite _]]]]].
  rewrite Hread, Hwrite. split; reflexivity.
Defined.

(** X17.  With the session acquired, the single read answers with the
    text "Node <id> value: <value>" when the id resolves and the read
    returns, and with "Error reading node <id>: <type>: <message>" when
    the id does not resolve (nothing is read then) or the read raises. *)
Theorem read_opcua_node_reports
  (Node Remote : Type) (lib : Library Node Remote) (cfg : Config)
  (node_id : string) (w w1 : World Remote) (client : Client) :
  get_opcua_client lib cfg w = (Ok (Some client), w1) ->
  (forall node v r2,
      get_node lib client (VStr node_id) = Ok node ->
      get_value lib node (remote w1) = (Ok v, r2) ->
      read_opcua_node lib cfg node_id w
      = (Ok ("Node " ++ node_id ++ " value: " ++ str v), with_remote w1 r2))
  /\ (forall e,
         get_node lib client (VStr node_id) = Raise e ->
         read_opcua_node lib cfg node_id w
         = (Ok ("Error reading node " ++ node_id ++ ": " ++ type_name e
                ++ ": " ++ str_exn e), w1))
  /\ (forall node e r2,
         get_node lib client (VStr node_id) = Ok node ->
         get_value lib node (remote w1) = (Raise e, r2) ->
         read_opcua_node lib cfg node_id w
         = (Ok ("Error reading node " ++ node_id ++ ": " ++ type_name e
                ++ ": " ++ str_exn e), with_remote w1 r2)).
Proof.
  intros Hacq. run_tool. rewrite Hacq. simpl. split; [| split].
  - intros node v r2 Hnode Hget. rewrite Hnode. simpl. rewrite Hget.
    reflexivity.
  - intros e Hnode. rewrite Hnode. reflexivity.
  - intros node e r2 Hnode Hget. rewrite Hnode. simpl. rewrite Hget.
    reflexivity.
Qed.

Lemma read_opcua_node_reports_witness :
  fst (read_opcua_node Sim.library Sim.config "ns=2;i=2" (Sim.start []))
  = Ok "Node ns=2;i=2 value: 42"
  /\ fst (read_opcua_node Sim.library Sim.config "ns=2;i=9" (Sim.start []))
     = Ok ("Error reading node ns=2;i=9: BadNodeIdUnknown: "
           ++ "The node id refers to a node that does not exist").
Proof.
  split.
  - destruct (read_opcua_node_reports
                _ _ Sim.library Sim.config "ns=2;i=2" (Sim.start [])
                sim_connected sim_client eq_refl) as [Hok _].
    rewrite (Hok "ns=2;i=2" (VInt 42) (remote sim_connected)
               eq_refl eq_refl).
    reflexivity.
  - destruct (read_opcua_node_reports
                _ _ Sim.library Sim.config "ns=2;i=9" (Sim.start [])
                sim_connected sim_client eq_refl) as [_ [_ Hfail]].
    rewrite (Hfail "ns=2;i=9" Sim.unknown_node (remote sim_connected)
               eq_refl eq_refl).
    reflexivity.
Defined.

(** X18.  When the single write resolves the id, writes the coerced
    variant and reads it back, it answers "Successfully wrote <text> to
    node <id>. Verified value: <read back>": the text is the caller's, as
    given, and the verified value is what the read after the write
    returned. *)
Theorem write_opcua_node_reports_success
  (Node Remote : Type) (lib : Library Node Remote) (cfg : Config)
  (node_id value : string) (w w1 w2 : World Remote) (client : Client)
  (node : Node) (variant : Variant) (r3 r4 : Remote) (new_value : Val) :
  get_opcua_client lib cfg w = (Ok (Some client), w1) ->
  get_node lib client (VStr node_id) = Ok node ->
  detect_and_convert_value lib node value w1 = (Ok variant, w2) ->
  set_data_value lib node (mkDataValue (Some variant)) (remote w2)
  = (Ok tt, r3) ->
  get_value lib node r3 = (Ok new_value, r4) ->
  write_opcua_node lib cfg node_id value w
  = (Ok ("Successfully wrote " ++ value ++ " to node " ++ node_id
         ++ ". Verified value: " ++ str new_value),
     with_remote w2 r4).
Proof.
  intros Hacq Hnode Hdetect Hset Hget. run_tool.
  rewrite Hacq. simpl. rewrite Hnode. simpl. rewrite Hdetect, Hset. simpl.
  rewrite Hget. reflexivity.
Qed.

Lemma write_opcua_node_reports_success_witness :
  fst (write_opcua_node Sim.library Sim.config "ns=2;i=2" " +7 "
         (Sim.start []))
  = Ok "Successfully wrote  +7  to node ns=2;i=2. Verified value: 7".
Proof.
  pose (w2 := mkWorld (Some sim_client) 1 (Sim.mkRemote [] Sim.table)
                      [CallConnect sim_client]
                      [LogConnected (server_url Sim.config);
                       LogNodeExpects VariantType.Int16]).
  pose (r3 := Sim.mkRemote []
                (Sim.store_node Sim.table "ns=2;i=2"
                   (mkVariant (PInt 7) VariantType.Int16))).
  rewrite (write_opcua_node_reports_success
             _ _ Sim.library Sim.config "ns=2;i=2" " +7 " (Sim.start [])
             sim_connected w2 sim_client "ns=2;i=2"
             (mkVariant (PInt 7) VariantType.Int16) r3 r3 (VInt 7)
             eq_refl eq_refl eq_refl eq_refl eq_refl).
  reflexivity.
Defined.

(** X19.  The single write is not undone when its verification fails:
    when the variant was written and the read back raises, the tool
    answers "Error writing to node <id>: ..." with the error of the read,
    and the remote state is the one the write produced. *)
Theorem write_opcua_node_unverified_write_stays
  (Node Remote : Type) (lib : Library Node Remote) (cfg : Config)
  (node_id value : string) (w w1 w2 : World Remote) (client : Client)
  (node : Node) (variant : Variant) (r3 r4 : Remote) (e : Exn) :
  get_opcua_client lib cfg w = (Ok (Some client), w1) ->
  get_node lib client (VStr node_id) = Ok node ->
  detect_and_convert_value lib node value w1 = (Ok variant, w2) ->
  set_data_value lib node (mkDataValue (Some variant)) (remote w2)
  = (Ok tt, r3) ->
  get_value lib node r3 = (Raise e, r4) ->
  write_opcua_node lib cfg node_id value w
  = (Ok ("Error writing to node " ++ node_id ++ ": " ++ type_name e ++ ": "
         ++ str_exn e),
     with_remote w2 r4).
Proof.
  intros Hacq Hnode Hdetect Hset Hget. run_tool.
  rewrite Hacq. simpl. rewrite Hnode. simpl. rewrite Hdetect, Hset. simpl.
  rewrite Hget. reflexivity.
Qed.

Lemma write_opcua_node_unverified_write_stays_witness :
  fst (write_opcua_node sim_unreadable Sim.config "ns=2;i=2" "7"
         (Sim.start []))
  = Ok ("Error writing to node ns=2;i=2: BadNotReadable: "
        ++ "The access level does not allow reading")
  /\ Sim.find_node
       (Sim.nodes
          (remote (snd (write_opcua_node sim_unreadable Sim.config
                          "ns=2;i=2" "7" (Sim.start [])))))
       "ns=2;i=2"
     = Some (mkVariant (PInt 7) VariantType.Int16).
Proof.
  pose (w2 := mkWorld (Some sim_client) 1 (Sim.mkRemote [] Sim.table)
                      [CallConnect sim_client]
                      [LogConnected (server_url Sim.config);
                       LogNodeExpects VariantType.Int16]).
  pose (r3 := Sim.mkRemote []
                (Sim.store_node Sim.table "ns=2;i=2"
                   (mkVariant (PInt 7) VariantType.Int16))).
  rewrite (write_opcua_node_unverified_write_stays
             _ _ sim_unreadable Sim.config "ns=2;i=2" "7" (Sim.start [])
             sim_connected w2 sim_client "ns=2;i=2"
             (mkVariant (PInt 7) VariantType.Int16) r3 r3
             (LibError "BadNotReadable"
                       "The access level does not allow reading")
             eq_refl eq_refl eq_refl eq_refl eq_refl).
  split; reflexivity.
Defined.

(** X20.  With the session acquired and both keys in every item, the
    batch write answers with exactly one status record per item, in input
    order, whatever fails inside an item: each record repeats the id and
    the value of its item and has either the status Success with a
    verified value, or a status that starts with "Error: " and no
    verified value. *)
Theorem write_multiple_answers_every_item
  (Node Remote : Type) (lib : Library Node Remote) (cfg : Config)
  (nodes_to_write : list Dict) (w w1 : World Remote) (client : option Client) :
  get_opcua_client lib cfg w = (Ok client, w1) ->
  forallb well_formed nodes_to_write = true ->
  exists status_report,
    fst (write_multiple_opcua_nodes lib cfg nodes_to_write w)
    = Ok (WriteMultiple status_report)
    /\ Forall2 record_for nodes_to_write status_report
    /\ List.length status_report = List.length nodes_to_write.
Proof.
  intros Hacq Hitems.
  destruct (write_loop_records lib client nodes_to_write [] w1 Hitems)
    as [records [w2 [Hloop Hall]]].
  exists records. split; [| split].
  - run_tool. rewrite Hacq. rewrite Hloop. reflexivity.
  - exact Hall.
  - symmetry. now apply Forall2_length with (R := record_for).
Qed.

Lemma write_multiple_answers_every_item_witness :
  exists status_report,
    fst (write_multiple_opcua_nodes Sim.library Sim.config
           [[("node_id", VStr "ns=2;i=9"); ("value", VInt 1)];
            [("node_id", VStr "ns=2;i=4"); ("value", VStr "on")];
            [("node_id", VInt 3); ("value", VNone)]]
           (Sim.start []))
    = Ok (WriteMultiple status_report)
    /\ List.length status_report = 3%nat.
Proof.
  destruct (write_multiple_answers_every_item
              _ _ Sim.library Sim.config
              [[("node_id", VStr "ns=2;i=9"); ("value", VInt 1)];
               [("node_id", VStr "ns=2;i=4"); ("value", VStr "on")];
               [("node_id", VInt 3); ("value", VNone)]]
              (Sim.start []) sim_connected (Some sim_client)
              eq_refl eq_refl)
    as [status_report [Hrun [_ Hlen]]].
  exists status_report. split; [exact Hrun | exact Hlen].
Defined.

(** X21.  A batch write of one item does to the world exactly what the
    single write of that id and value does, and tells the same story: a
    Success record where the single write answers "Successfully wrote",
    and the same error, in an Error record or as the batch error, where
    the single write answers "Error writing to node". *)
Theorem single_item_batch_is_a_single_write
  (Node Remote : Type) (lib : Library Node Remote) (cfg : Config)
  (w : World Remote) (item : Dict) (node_id : string) (value : Val) :
  get item "node_id" = Some (VStr node_id) ->
  get item "value" = Some value ->
  snd (write_multiple_opcua_nodes lib cfg [item] w)
  = snd (write_opcua_node lib cfg node_id (str value) w)
  /\ ((exists new_value,
          fst (write_multiple_opcua_nodes lib cfg [item] w)
          = Ok (WriteMultiple
                  [[("node_id", VStr node_id); ("value_written", value);
                    ("verified_value", new_value);
                    ("status", VStr "Success")]])
          /\ fst (write_opcua_node lib cfg node_id (str value) w)
             = Ok ("Successfully wrote " ++ str value ++ " to node "
                   ++ node_id ++ ". Verified value: " ++ str new_value))
      \/ (exists e,
             (fst (write_multiple_opcua_nodes lib cfg [item] w)
              = Ok (WriteMultiple
                      [[("node_id", VStr node_id); ("value_written", value);
                        ("status", VStr ("Error: " ++ str_exn e))]])
              \/ fst (write_multiple_opcua_nodes lib cfg [item] w)
                 = Ok (WriteMultipleError e))
             /\ fst (write_opcua_node lib cfg node_id (str value) w)
                = Ok ("Error writing to node " ++ node_id ++ ": "
                      ++ type_name e ++ ": " ++ str_exn e))).
Proof.
  intros Hid Hvalue. run_tool. simpl.
  destruct (get_opcua_client lib cfg w) as [[g | e] w1] eqn:Hacq; simpl;
    [| split; [reflexivity | right; exists e; auto]].
  destruct (get_opcua_client_some lib cfg w w1 g Hacq) as [c [-> _]].
  unfold write_item, try_except, io_bind, attr, lift, remote_op, ret, raise,
    getitem.
  rewrite Hid, Hvalue. simpl.
  destruct (get_node lib c (VStr node_id)) as [node | e]; simpl;
    [| split; [reflexivity | right; exists e; auto]].
  destruct (detect_and_convert_value lib node (str value) w1)
    as [[variant | e] w2]; simpl;
    [| split; [reflexivity | right; exists e; auto]].
  destruct (set_data_value lib node _ (remote w2)) as [[[] | e] r3]; simpl;
    [| split; [reflexivity | right; exists e; auto]].
  destruct (get_value lib node r3) as [[new_value | e] r4]; simpl;
    (split; [reflexivity |]).
  - left. exists new_value. auto.
  - right. exists e. auto.
Qed.

Lemma single_item_batch_is_a_single_write_witness :
  snd (write_multiple_opcua_nodes Sim.library Sim.config
         [[("node_id", VStr "ns=2;i=2"); ("value", VInt 10)]] (Sim.start []))
  = snd (write_opcua_node Sim.library Sim.config "ns=2;i=2" "10"
           (Sim.start [])).
Proof.
  apply (single_item_batch_is_a_single_write
           _ _ Sim.library Sim.config (Sim.start [])
           [("node_id", VStr "ns=2;i=2"); ("value", VInt 10)]
           "ns=2;i=2" (VInt 10) eq_refl eq_refl).
Defined.

(** X22.  An empty batch still starts with the acquisition, so it may
    connect; when the acquisition returns, the batch read answers with
    the empty dictionary and the batch write with the empty list, and
    nothing else happens. *)
Theorem empty_batches_only_acquire
  (Node Remote : Type) (lib : Library Node Remote) (cfg : Config)
  (w w1 : World Remote) (client : option Client) :
  get_opcua_client lib cfg w = (Ok client, w1) ->
  read_multiple_opcua_nodes lib cfg [] w = (Ok (ReadMultiple []), w1)
  /\ write_multiple_opcua_nodes lib cfg [] w = (Ok (WriteMultiple []), w1).
Proof.
  intros Hacq. run_tool. rewrite Hacq. split; reflexivity.
Qed.

Lemma empty_batches_only_acquire_witness :
  read_multiple_opcua_nodes Sim.library Sim.config [] (Sim.start [])
  = (Ok (ReadMultiple []), sim_connected)
  /\ connect_count sim_connected = 1%nat.
Proof.
  destruct (empty_batches_only_acquire
              _ _ Sim.library Sim.config (Sim.start []) sim_connected
              (Some sim_client) eq_refl) as [Hread _].
  split; [exact Hread | reflexivity].
Defined.

(** X23.  The lifespan hands the server the world as it is, with no
    connection made for it, and releases the client when the server is
    done: the outcome of the server, value or exception, comes out
    unchanged, and the global is cleared in both cases. *)
Theorem opcua_lifespan_always_releases
  (Node Remote A : Type) (lib : Library Node Remote)
  (serve : Dict -> IO Remote A) (w : World Remote) :
  fst (opcua_lifespan lib serve w) = fst (serve [] w)
  /\ snd (opcua_lifespan lib serve w)
     = snd (cleanup_client lib (snd (serve [] w)))
  /\ _opcua_client (snd (opcua_lifespan lib serve w)) = None.
Proof.
  unfold opcua_lifespan, try_finally.
  destruct (serve [] w) as [r w1]. simpl.
  destruct (cleanup_client_clears lib w1) as [Hok Hnone].
  destruct (cleanup_client lib w1) as [[[] | e] w2]; simpl in *;
    [auto | discriminate].
Qed.

(** X24.  With the session acquired, the connection test answers with the
    configured url and the number of children of the objects node; it
    asks for the root node first, which it does not use, and when that
    request raises the test fails before any child is listed. *)
Theorem test_opcua_connection_reports
  (Node Remote : Type) (lib : Library Node Remote) (folders : Folders Node)
  (cfg : Config) (w w1 : World Remote) (client : Client) :
  get_opcua_client lib cfg w = (Ok (Some client), w1) ->
  (forall root objects children r2,
      get_root_node folders client = Ok root ->
      get_objects_node folders client = Ok objects ->
      get_children lib objects (remote w1) = (Ok children, r2) ->
      test_opcua_connection lib folders cfg w
      = (Ok ("Connected successfully to " ++ server_url cfg ++ ". Found "
             ++ decimal (N.of_nat (List.length children))
             ++ " objects in root folder."),
         with_remote w1 r2))
  /\ (forall e,
         get_root_node folders client = Raise e ->
         test_opcua_connection lib folders cfg w
         = (Ok ("Connection test failed: " ++ type_name e ++ ": "
                ++ str_exn e), w1)).
Proof.
  intros Hacq. run_tool. rewrite Hacq. simpl. split.
  - intros root objects children r2 Hroot Hobjects Hchildren.
    rewrite Hroot, Hobjects. simpl. rewrite Hchildren. reflexivity.
  - intros e Hroot. rewrite Hroot. reflexivity.
Qed.

Lemma test_opcua_connection_reports_witness :
  fst (test_opcua_connection Sim.library sim_folders Sim.config
         (Sim.start []))
  = Ok ("Connected successfully to opc.tcp://192.168.0.100:5005. "
        ++ "Found 5 objects in root folder.").
Proof.
  destruct (test_opcua_connection_reports
              _ _ Sim.library sim_folders Sim.config (Sim.start [])
              sim_connected sim_client eq_refl) as [Hok _].
  rewrite (Hok "i=84" "i=85"
             ["ns=2;i=2"; "ns=2;i=3"; "ns=2;i=4"; "ns=2;i=5"; "ns=2;s=Stale"]
             (remote sim_connected) eq_refl eq_refl eq_refl).
  reflexivity.
Defined.

Lemma get_nodes_unresolved {Node Remote : Type} (lib : Library Node Remote)
  (client : option Client) (node_ids : list string) (nid : string) :
  In nid node_ids ->
  is_ok (client_get_node lib client (VStr nid)) = false ->
  exists e, get_nodes lib client node_ids = Raise e.
Proof.
  induction node_ids as [| first rest IH]; simpl; [contradiction |].
  intros [-> | Hin] Hbad.
  - destruct (client_get_node lib client (VStr nid)); [discriminate |].
    simpl. eauto.
  - destruct (client_get_node lib client (VStr first)); simpl; [| eauto].
    destruct (IH Hin Hbad) as [e He]. rewrite He. simpl. eauto.
Qed.

(** X25.  The batch read resolves every id before it reads any node:
    when one id of the list does not resolve, wherever it stands, the
    tool answers with the batch error and has read nothing, the world
    being the one the acquisition left. *)
Theorem read_multiple_reads_nothing_when_an_id_is_unresolved
  (Node Remote : Type) (lib : Library Node Remote) (cfg : Config)
  (node_ids : list string) (w w1 : World Remote) (client : option Client)
  (nid : string) :
  get_opcua_client lib cfg w = (Ok client, w1) ->
  In nid node_ids ->
  is_ok (client_get_node lib client (VStr nid)) = false ->
  exists e,
    read_multiple_opcua_nodes lib cfg node_ids w
    = (Ok (ReadMultipleError node_ids e), w1).
Proof.
  intros Hacq Hin Hbad.
  destruct (get_nodes_unresolved lib client node_ids nid Hin Hbad)
    as [e He].
  exists e. run_tool. rewrite Hacq. fold (client_get_node lib client).
  unfold lift. rewrite He. reflexivity.
Qed.

Lemma read_multiple_reads_nothing_when_an_id_is_unresolved_witness :
  exists e,
    read_multiple_opcua_nodes Sim.library Sim.config
      ["ns=2;i=2"; "ns=2;i=3"; "BAD"] (Sim.start [])
    = (Ok (ReadMultipleError ["ns=2;i=2"; "ns=2;i=3"; "BAD"] e),
       sim_connected).
Proof.
  apply (read_multiple_reads_nothing_when_an_id_is_unresolved
           _ _ Sim.library Sim.config ["ns=2;i=2"; "ns=2;i=3"; "BAD"]
           (Sim.start []) sim_connected (Some sim_client) "BAD" eq_refl).
  - simpl. tauto.
  - reflexivity.
Defined.

(** X26.  The batch write stops at an item without one of its keys: the
    items after it are never looked at, so the response and the world are
    the same as if the list ended with that item. *)
Theorem write_multiple_stops_at_malformed_item
  (Node Remote : Type) (lib : Library Node Remote) (cfg : Config)
  (w : World Remote) (before after : list Dict) (item : Dict) :
  well_formed item = false ->
  write_multiple_opcua_nodes lib cfg (before ++ item :: after)%list w
  = write_multiple_opcua_nodes lib cfg (before ++ [item])%list w.
Proof.
  intros Hitem. unfold write_multiple_opcua_nodes, try_except, io_bind, ret.
  destruct (get_opcua_client lib cfg w) as [[g | e] w1]; [| reflexivity].
  rewrite !write_loop_app.
  destruct (write_loop lib g before [] w1) as [[sr | e] w2]; [| reflexivity].
  simpl. unfold io_bind.
  destruct (write_item_malformed lib g item sr w2 Hitem) as [w3 Hraise].
  rewrite Hraise. reflexivity.
Qed.

Lemma write_multiple_stops_at_malformed_item_witness :
  write_multiple_opcua_nodes Sim.library Sim.config
    [[("node_id", VStr "ns=2;i=2"); ("value", VInt 10)];
     [("value", VInt 11)];
     [("node_id", VStr "ns=2;i=3"); ("value", VStr "run")]]
    (Sim.start [])
  = write_multiple_opcua_nodes Sim.library Sim.config
      [[("node_id", VStr "ns=2;i=2"); ("value", VInt 10)];
       [("value", VInt 11)]]
      (Sim.start []).
Proof.
  apply (write_multiple_stops_at_malformed_item
           _ _ Sim.library Sim.config (Sim.start [])
           [[("node_id", VStr "ns=2;i=2"); ("value", VInt 10)]]
           [[("node_id", VStr "ns=2;i=3"); ("value", VStr "run")]]
           [("value", VInt 11)] eq_refl).
Defined.

(** X27.  A batch read of one id does to the world exactly what the
    single read of that id does.  Where the single read answers with the
    value, the batch has it under the node's id; where the read raises,
    the single read answers with an error while the batch still answers
    with a dictionary, the error text standing for the value; where the
    id does not resolve or the acquisition fails, both answer with their
    error. *)
Theorem single_id_batch_is_a_single_read
  (Node Remote : Type) (lib : Library Node Remote) (cfg : Config)
  (w : World Remote) (node_id : string) :
  snd (read_multiple_opcua_nodes lib cfg [node_id] w)
  = snd (read_opcua_node lib cfg node_id w)
  /\ ((exists node v,
          fst (read_multiple_opcua_nodes lib cfg [node_id] w)
          = Ok (ReadMultiple [(nodeid_to_string lib node, v)])
          /\ fst (read_opcua_node lib cfg node_id w)
             = Ok ("Node " ++ node_id ++ " value: " ++ str v))
      \/ (exists node e,
             fst (read_multiple_opcua_nodes lib cfg [node_id] w)
             = Ok (ReadMultiple
                     [(nodeid_to_string lib node,
                       VStr ("Error reading node "
                             ++ nodeid_to_string lib node ++ ": "
                             ++ str_exn e))])
             /\ fst (read_opcua_node lib cfg node_id w)
                = Ok ("Error reading node " ++ node_id ++ ": "
                      ++ type_name e ++ ": " ++ str_exn e))
      \/ (exists e,
             fst (read_multiple_opcua_nodes lib cfg [node_id] w)
             = Ok (ReadMultipleError [node_id] e)
             /\ fst (read_opcua_node lib cfg node_id w)
                = Ok ("Error reading node " ++ node_id ++ ": "
                      ++ type_name e ++ ": " ++ str_exn e))).
Proof.
  run_tool. simpl.
  destruct (get_opcua_client lib cfg w) as [[g | e] w1] eqn:Hacq; simpl;
    [| split; [reflexivity | right; right; exists e; auto]].
  destruct (get_opcua_client_some lib cfg w w1 g Hacq) as [c [-> _]].
  unfold client_get_node, bind. simpl.
  destruct (get_node lib c (VStr node_id)) as [node | e]; simpl;
    [| split; [reflexivity | right; right; exists e; auto]].
  unfold read_node, try_except, io_bind, remote_op, ret. simpl.
  destruct (get_value lib node (remote w1)) as [[v | e] r2]; simpl;
    (split; [reflexivity |]).
  - left. exists node, v. auto.
  - right. left. exists node, e. auto.
Qed.
